(** * CareerCompass: the job-matching pipeline of [JobMatcherAgent]

    A shallow embedding of [src/agents/job_matcher_agent.py] and of the
    parts of [src/agents/base_agent.py] it relies on, with the properties
    of the ranking pipeline stated and proved over it.  It also covers
    [Retriever.retrieve_jobs] of [src/rag/retriever.py], which feeds the
    pipeline, and the routing of [src/agents/supervisor_agent.py], which
    decides whether the pipeline is called.

    Modelling conventions.
    - A Python [str] is a Rocq [string] holding its UTF-8 encoding.  The
      regular expressions of the source only name ASCII characters, and the
      classes [\s] and [\d] are the ASCII ones: the model is exact on texts
      whose non-ASCII characters are neither Unicode white space nor
      Unicode digits nor case variants of ASCII letters.
    - A Python [float] is the rational number it denotes ([Q]); rounding is
      not modelled.  [float(s)] is modelled on the decimal syntax the score
      patterns can capture.
    - A context dictionary is a [gmap] from keys to Python values; a value
      of the wrong type makes the model raise where Python would.
    - Calls to collaborators (corpus statistics, retrieval, completion) are
      logged in a trace, so that "no call is made" is a statement about the
      trace.  Printing is not modelled, except where formatting the
      threshold can raise.
    - The methods [str.lower], [str.strip] and [str.split] of the routing,
      which follow Unicode, are parameters of its model. *)

From Stdlib Require Import String Ascii ZArith NArith QArith Qround Lia Bool.
From stdpp Require Import base option list gmap strings pretty.
From stdpp Require Import sorting.

(** ** Characters and decimal numbers *)

Module Text.

Definition code (c : ascii) : N := N_of_ascii c.

(** [\d] on ASCII. *)
Definition is_digit (c : ascii) : bool :=
  match c with
  | "0" | "1" | "2" | "3" | "4" | "5" | "6" | "7" | "8" | "9" => true
  | _ => false
  end%char.

(** [\s] on ASCII: tab, line feed, vertical tab, form feed, carriage
    return, the four separators 0x1c-0x1f, and space. *)
Definition is_space (c : ascii) : bool :=
  match c with
  | "009" | "010" | "011" | "012" | "013"
  | "028" | "029" | "030" | "031" | " " => true
  | _ => false
  end%char.

(** Case folding of [re.IGNORECASE] on ASCII letters. *)
Definition lower (c : ascii) : ascii :=
  match c with
  | "A" => "a" | "B" => "b" | "C" => "c" | "D" => "d" | "E" => "e"
  | "F" => "f" | "G" => "g" | "H" => "h" | "I" => "i" | "J" => "j"
  | "K" => "k" | "L" => "l" | "M" => "m" | "N" => "n" | "O" => "o"
  | "P" => "p" | "Q" => "q" | "R" => "r" | "S" => "s" | "T" => "t"
  | "U" => "u" | "V" => "v" | "W" => "w" | "X" => "x" | "Y" => "y"
  | "Z" => "z"
  | _ => c
  end%char.

Definition eq_nocase (c1 c2 : ascii) : bool :=
  Ascii.eqb (lower c1) (lower c2).

Fixpoint all_chars (p : ascii -> bool) (s : string) : bool :=
  match s with
  | EmptyString => true
  | String c s' => p c && all_chars p s'
  end.

Definition all_digits (s : string) : bool := all_chars is_digit s.

(** Value of a digit string, most significant digit first. *)
Fixpoint digits_val (s : string) (acc : N) : N :=
  match s with
  | EmptyString => acc
  | String c s' => digits_val s' (acc * 10 + (code c - 48))%N
  end.

(** The longest prefix of digits, and what follows it. *)
Fixpoint span_digits (s : string) : string * string :=
  match s with
  | String c s' =>
      if is_digit c
      then let '(ds, rest) := span_digits s' in (String c ds, rest)
      else (EmptyString, s)
  | EmptyString => (EmptyString, EmptyString)
  end.

Definition is_empty (s : string) : bool :=
  match s with EmptyString => true | _ => false end.

(** [float(s)] for an unsigned decimal [s]: digits, then optionally a
    point and digits, with a digit somewhere.  [None] stands for
    [ValueError]. *)
Definition float (s : string) : option Q :=
  let '(ip, rest) := span_digits s in
  match rest with
  | EmptyString =>
      if is_empty ip then None
      else Some (Z.of_N (digits_val ip 0) # 1)
  | String "."%char fp =>
      if all_digits fp && negb (is_empty ip && is_empty fp)
      then Some (Z.of_N (digits_val (ip +:+ fp) 0)
                 # Pos.pow 10 (Pos.of_nat (String.length fp)))
      else None
  | _ => None
  end.

(** Does [needle] occur in [s]? (Python's [needle in s].) *)
Fixpoint contains (needle s : string) : bool :=
  String.prefix needle s
  || match s with
     | EmptyString => false
     | String _ s' => contains needle s'
     end.

End Text.

(** ** The fragment of Python's [re] the agent uses

    Backtracking matching with Python's priorities: quantifiers are greedy,
    an optional part is tried before it is skipped, and [search] returns the
    leftmost match. Quantifiers [*] and [+] only ever apply to a character
    class in the source patterns, which is what [Star] and [Plus] take. *)

Module Re.
Import Text.

Inductive regex : Type :=
| Eps
| Lit (c : ascii)                 (* a literal, case-insensitive *)
| Cls (p : ascii -> bool)         (* a character class *)
| Seq (r1 r2 : regex)
| Opt (r : regex)                 (* r? *)
| Star (p : ascii -> bool)        (* [p]* *)
| Plus (p : ascii -> bool)        (* [p]+ *)
| Group (r : regex).              (* the capturing group, number 1 *)

(** A literal word, letter by letter. *)
Fixpoint word (s : string) : regex :=
  match s with
  | EmptyString => Eps
  | String c s' => Seq (Lit c) (word s')
  end.

(** The text read between [s] and its suffix [s']. *)
Definition consumed (s s' : string) : string :=
  substring 0 (String.length s - String.length s') s.
Arguments consumed : simpl never.

Section Matcher.
Context {R : Type}.

(** Greedy repetition of a class: the longest run first, then shorter
    ones while the continuation fails. *)
Fixpoint star (p : ascii -> bool) (s : string)
    (k : string -> option R) : option R :=
  match s with
  | String c s' =>
      if p c
      then match star p s' k with
           | Some x => Some x
           | None => k s
           end
      else k s
  | EmptyString => k s
  end.

(** [mtch r s g k]: match [r] at the start of [s], group 1 so far [g],
    and hand the rest of the text and the group to [k]. *)
Fixpoint mtch (r : regex) (s : string) (g : option string)
    (k : string -> option string -> option R) : option R :=
  match r with
  | Eps => k s g
  | Lit c =>
      match s with
      | String c' s' => if eq_nocase c c' then k s' g else None
      | EmptyString => None
      end
  | Cls p =>
      match s with
      | String c' s' => if p c' then k s' g else None
      | EmptyString => None
      end
  | Seq r1 r2 => mtch r1 s g (fun s' g' => mtch r2 s' g' k)
  | Opt r1 =>
      match mtch r1 s g k with
      | Some x => Some x
      | None => k s g
      end
  | Star p => star p s (fun s' => k s' g)
  | Plus p =>
      match s with
      | String c' s' => if p c' then star p s' (fun s'' => k s'' g) else None
      | EmptyString => None
      end
  | Group r1 =>
      mtch r1 s g (fun s' _ => k s' (Some (consumed s s')))
  end.
End Matcher.

(** A match object: the text before the match, the text after it, and
    group 1. *)
Record rmatch : Type := RMatch {
  m_pre : string;
  m_post : string;
  m_group1 : option string
}.

Definition match_at (r : regex) (s : string) : option rmatch :=
  mtch r s None (fun s' g => Some (RMatch EmptyString s' g)).

(** [re.search]: the first position, from the left, where [r] matches. *)
Fixpoint search (r : regex) (s : string) : option rmatch :=
  match match_at r s with
  | Some m => Some m
  | None =>
      match s with
      | EmptyString => None
      | String c s' =>
          match search r s' with
          | Some m => Some (RMatch (String c (m_pre m)) (m_post m) (m_group1 m))
          | None => None
          end
      end
  end.

(** [re.split] for a delimiter without groups that never matches the
    empty string: every match then shortens the text, and as many steps
    as the text has characters are enough. *)
Fixpoint split_fuel (fuel : nat) (r : regex) (s : string) : list string :=
  match fuel with
  | O => [s]
  | S fuel' =>
      match search r s with
      | None => [s]
      | Some m => m_pre m :: split_fuel fuel' r (m_post m)
      end
  end.

Definition split (r : regex) (s : string) : list string :=
  split_fuel (String.length s) r s.

(** The text [s] does not start with a character of the class [p]. *)
Definition starts_without (p : ascii -> bool) (s : string) : Prop :=
  match s with
  | String c _ => p c = false
  | EmptyString => True
  end.

(** [re.sub(r, repl, s, count=1)] for a replacement without escapes. *)
Definition sub1 (r : regex) (repl s : string) : string :=
  match search r s with
  | None => s
  | Some m => m_pre m +:+ repl +:+ m_post m
  end.

End Re.

(** ** Python values, exceptions and the trace of collaborator calls *)

(** The values a context dictionary holds. *)
Inductive PyVal : Type :=
| VNone
| VStr (s : string)
| VInt (n : Z)
| VFloat (x : Q).

(** Exceptions derived from [Exception]; [Failure] carries the message of
    an error raised by a collaborator. *)
Inductive exc : Type :=
| TypeError
| ValueError
| Failure (msg : string).

Inductive outcome (A : Type) : Type :=
| Ret (a : A)
| Raise (e : exc).
Arguments Ret {A} a.
Arguments Raise {A} e.

(** A job as [Retriever.retrieve_jobs] builds it. *)
Record Job : Type := mkJob {
  rank : nat;
  id : string;
  content : string;
  metadata : gmap string PyVal;
  similarity_score : Q;
  distance : Q
}.

(** One entry of [matched_jobs]: [(score, job_data, section)]. *)
Definition scored : Type := (Q * Job * string)%type.

Inductive event : Type :=
| EvStats                                       (* chroma_manager.get_stats() *)
| EvRetrieve (query : string) (n_results : Z)   (* retriever.retrieve_jobs *)
| EvGenerate (prompt system_prompt : string).   (* llm.generate *)

Definition is_generate (e : event) : bool :=
  match e with EvGenerate _ _ => true | _ => false end.

(** The number of completion calls a trace records. *)
Fixpoint completion_calls (t : list event) : nat :=
  match t with
  | [] => 0
  | e :: t' => (if is_generate e then 1 else 0) + completion_calls t'
  end.

(** Computations that log their calls and may raise. *)
Definition M (A : Type) : Type := list event -> outcome A * list event.

Definition ret {A} (a : A) : M A := fun t => (Ret a, t).

Definition bind {A B} (m : M A) (f : A -> M B) : M B :=
  fun t => match m t with
           | (Ret a, t') => f a t'
           | (Raise e, t') => (Raise e, t')
           end.

Definition lift {A} (o : outcome A) : M A := fun t => (o, t).

(** [try: m  except Exception as e: h e] *)
Definition try_except {A} (m : M A) (h : exc -> M A) : M A :=
  fun t => match m t with
           | (Ret a, t') => (Ret a, t')
           | (Raise e, t') => h e t'
           end.

Notation "'do' x <- m ; k" := (bind m (fun x => k))
  (at level 10, x pattern, m at level 100, k at level 200,
   format "'[v' 'do'  x  <-  m ; '/' k ']'").

Definition nl : string := String (ascii_of_nat 10) EmptyString.

(** ** [BaseAgent]: context validation and error formatting *)

(** [validate_context(context, required_keys)]; [None] is Python's [None]. *)
Definition validate_context (context : option (gmap string PyVal))
    (required_keys : list string) : bool :=
  match context with
  | None => false
  | Some ctx =>
      if decide (ctx = ∅) then false
      else
        let missing_keys :=
          filter (fun key => ctx !! key = None) required_keys in
        match missing_keys with
        | [] => true
        | _ :: _ => false
        end
  end.

Definition format_error_response (error_msg : string) : string :=
  "I apologize, but I encountered an issue: " +:+ error_msg +:+ nl +:+ nl
  +:+ "Please try rephrasing your question or providing more context.".

(** ** The patterns of [_parse_job_scores_from_response] *)

Module Patterns.
Import Text Re.

Definition cat (rs : list regex) : regex := foldr Seq Eps rs.

Definition is_colon (c : ascii) : bool := Ascii.eqb c ":"%char.
(** [[:\s*]] *)
Definition colon_space_star (c : ascii) : bool :=
  Ascii.eqb c ":"%char || is_space c || Ascii.eqb c "*"%char.
(** [[:\s]] *)
Definition colon_space (c : ascii) : bool :=
  Ascii.eqb c ":"%char || is_space c.

(** [\d+(?:\.\d+)?] *)
Definition number : regex :=
  cat [Plus is_digit; Opt (cat [Lit "."%char; Plus is_digit])].

(** [(?:Overall\s+)?Match\s+Score[:\s*]+(\d+(?:\.\d+)?)%] *)
Definition standard_format : regex :=
  cat [Opt (cat [word "Overall"; Plus is_space]); word "Match";
       Plus is_space; word "Score"; Plus colon_space_star;
       Group number; Lit "%"%char].

(** [\*\*Overall\s+Match\s+Score\*\*[:\s]+(\d+(?:\.\d+)?)%] *)
Definition markdown_bold : regex :=
  cat [word "**Overall"; Plus is_space; word "Match"; Plus is_space;
       word "Score**"; Plus colon_space; Group number; Lit "%"%char].

(** [Match\s+Score[:\s]+(\d+(?:\.\d+)?)%] *)
Definition simple_format : regex :=
  cat [word "Match"; Plus is_space; word "Score"; Plus colon_space;
       Group number; Lit "%"%char].

(** [(\d+(?:\.\d+)?)%\s+match] *)
Definition x_percent_match : regex :=
  cat [Group number; Lit "%"%char; Plus is_space; word "match"].

Definition score_patterns : list regex :=
  [standard_format; markdown_bold; simple_format; x_percent_match].

(** [###\s+Job\s*#?\d+[:]], the delimiter of [re.split]. *)
Definition job_header : regex :=
  cat [word "###"; Plus is_space; word "Job"; Star is_space;
       Opt (Lit "#"%char); Plus is_digit; Cls is_colon].

(** [###\s*Job\s*#?\d+[:]], the pattern of the renumbering [re.sub]. *)
Definition job_label : regex :=
  cat [word "###"; Star is_space; word "Job"; Star is_space;
       Opt (Lit "#"%char); Plus is_digit; Cls is_colon].

End Patterns.

(** ** Score parsing *)

Import Text Re Patterns.

(** The loop [for pattern in score_patterns] on one section: the first
    pattern that matches and whose group parses as a number gives the
    score; [None] is Python's [score_value = None]. *)
Fixpoint find_score (patterns : list regex) (section : string) : option Q :=
  match patterns with
  | [] => None
  | pattern :: patterns' =>
      match search pattern section with
      | Some score_match =>
          match m_group1 score_match ≫= float with
          | Some x => Some (x / 100)%Q
          | None => find_score patterns' section
          end
      | None => find_score patterns' section
      end
  end.

(** The loop [for i, section in enumerate(job_sections[1:], 0)].
    [start_job_num] is at least 1 in every call of the source. *)
Fixpoint score_sections (sections : list string) (i : nat)
    (job_results : list Job) (start_job_num : nat) : list scored :=
  match sections with
  | [] => []
  | section :: sections' =>
      let score_value := find_score score_patterns section in
      let job_idx := (start_job_num - 1) + i in
      let scored_rest :=
        score_sections sections' (S i) job_results start_job_num in
      match job_results !! job_idx with
      | Some job_data =>
          match score_value with
          | Some x => (x, job_data, section) :: scored_rest
          | None => (0%Q, job_data, section) :: scored_rest
          end
      | None => scored_rest
      end
  end.

Definition _parse_job_scores_from_response (response : string)
    (job_results : list Job) (start_job_num : nat) : list scored :=
  let job_sections := split job_header response in
  score_sections (tail job_sections) 0 job_results start_job_num.

(** ** Dynamic checks on context values *)

(** [len(matched_jobs) >= n_results] *)
Definition py_len_ge (len : nat) (n_results : PyVal) : outcome bool :=
  match n_results with
  | VInt n => Ret (n <=? Z.of_nat len)%Z
  | VFloat x => Ret (Qle_bool x (inject_Z (Z.of_nat len)))
  | VStr _ | VNone => Raise TypeError
  end.

(** [score >= min_match_score] *)
Definition py_score_ge (score : Q) (min_match_score : PyVal) : outcome bool :=
  match min_match_score with
  | VInt n => Ret (Qle_bool (inject_Z n) score)
  | VFloat x => Ret (Qle_bool x score)
  | VStr _ | VNone => Raise TypeError
  end.

(** [settings.MIN_JOB_MATCH_SCORE] *)
Definition MIN_JOB_MATCH_SCORE : Q := 0.60.

Definition min_semantic_similarity : Q := 0.35.

(** The list comprehension that pre-filters the retrieved candidates.
    [Retriever.retrieve_jobs] sets [similarity_score] in every job, so the
    default of [job.get('similarity_score', 0)] is never taken. *)
Definition pre_filter (all_job_results : list Job) : list Job :=
  filter (fun job => Qle_bool min_semantic_similarity (similarity_score job) = true)
         all_job_results.

Definition threshold_instruction : string :=
  nl +:+ nl
  +:+ "Analyze the COMPLETE resume against this job. Calculate Overall Match Score considering:"
  +:+ nl
  +:+ "- Skills match (30%), Experience level (25%), Education (15%), Projects (15%), Overall fit (15%)"
  +:+ nl +:+ nl
  +:+ "You MUST include: **Overall Match Score:** [X]%"
  +:+ nl +:+ nl
  +:+ "Be thorough - check ALL resume sections against job requirements.".

Definition no_jobs_in_database : string :=
  "I couldn't find any jobs in the database. Please run `python load_data.py` to load job postings.".

Definition no_matching_jobs : string :=
  "I couldn't find any matching jobs in the database. Please try uploading more job postings or adjusting your resume.".

Definition resume_missing : string :=
  "Please provide your resume to find matching jobs.".

(** The text [generate_response] returns when the provider fails. *)
Definition apology (error : string) : string :=
  "I apologize, but I encountered an error processing your request: "
  +:+ error.

(** ** The agent *)

Section Agent.

(** The collaborators. [llm_generate] also takes the number of calls
    logged so far: two calls with one prompt may answer differently.
    It returns [None] when the provider gives no text. *)
Variable get_stats : outcome (gmap string Z).
Variable retrieve_jobs : string -> Z -> outcome (list Job).
Variable llm_generate : nat -> string -> string -> outcome (option string).

(** [str(e)] *)
Variable exc_text : exc -> string.
(** [PromptTemplates.get_job_matcher_prompt()] *)
Variable get_system_prompt : string.
(** [ContextBuilder.build_job_matching_context] *)
Variable build_job_matching_context : string -> list Job -> string -> string.
(** [_extract_key_resume_info], a pure function of the resume text. *)
Variable _extract_key_resume_info : string -> string.
(** [f"{x*100:.0f}"] *)
Variable percent0 : Q -> string.

(** [BaseAgent.generate_response]: an error of the provider is caught
    and turned into a text. *)
Definition generate_response (user_prompt : string) : M (option string) :=
  fun t =>
    let system_prompt := get_system_prompt in
    let t' := t ++ [EvGenerate user_prompt system_prompt] in
    match llm_generate (length t) user_prompt system_prompt with
    | Ret response => (Ret response, t')
    | Raise e => (Ret (Some (apology (exc_text e))), t')
    end.

(** [f"{min_match_score*100:.0f}"]: fails on a value that is no number. *)
Definition format_threshold (min_match_score : PyVal) : outcome string :=
  match min_match_score with
  | VInt n => Ret (percent0 (inject_Z n))
  | VFloat x => Ret (percent0 x)
  | VStr _ => Raise ValueError
  | VNone => Raise TypeError
  end.

(** [re.search] on the resume raises [TypeError] unless it is a [str]. *)
Definition search_query_of (resume_text : PyVal) : outcome string :=
  match resume_text with
  | VStr s => Ret (_extract_key_resume_info s)
  | _ => Raise TypeError
  end.

Definition text_of (v : PyVal) : string :=
  match v with VStr s => s | _ => EmptyString end.

Section Loop.
Variable query : string.
Variable resume_text : string.
Variable n_results : PyVal.
Variable min_match_score : PyVal.

(** How one pass through the [try] block ends. *)
Inductive step_end : Type := Continue | Break.

(** The body of the [try] block for one candidate, after the response
    came back: the new [matched_jobs] and whether the loop breaks.
    [Raise] is an exception the [except] clause of the loop catches;
    [matched_jobs] is then as it was. *)
Definition score_candidate (response : option string) (job : Job)
    (matched_jobs : list scored) : outcome (list scored * step_end) :=
  match response with
  | None => Raise TypeError          (* re.split on None *)
  | Some text =>
      let job_scored := _parse_job_scores_from_response text [job] 1 in
      match job_scored with
      | [] => Ret (matched_jobs, Continue)
      | (score, job_data, section) :: _ =>
          match py_score_ge score min_match_score with
          | Raise e => Raise e
          | Ret false => Ret (matched_jobs, Continue)
          | Ret true =>
              let matched_jobs' := matched_jobs ++ [(score, job_data, section)] in
              match py_len_ge (length matched_jobs') n_results with
              | Ret true => Ret (matched_jobs', Break)
              | Ret false => Ret (matched_jobs', Continue)
              | Raise _ => Ret (matched_jobs', Continue)
              end
          end
      end
  end.

(** [for job_idx, job in enumerate(pre_filtered_jobs, 1)], returning
    [(matched_jobs, jobs_checked)]. *)
Fixpoint scoring_loop (pool : list Job) (matched_jobs : list scored)
    (jobs_checked : nat) : M (list scored * nat) :=
  match pool with
  | [] => ret (matched_jobs, jobs_checked)
  | job :: pool' =>
      do stop <- lift (py_len_ge (length matched_jobs) n_results);
      if (stop : bool) then ret (matched_jobs, jobs_checked)
      else
        let jobs_checked := S jobs_checked in
        let context_text :=
          build_job_matching_context resume_text [job] query
          +:+ threshold_instruction in
        do response <- generate_response context_text;
        match score_candidate response job matched_jobs with
        | Ret (matched_jobs', Break) => ret (matched_jobs', jobs_checked)
        | Ret (matched_jobs', Continue) =>
            scoring_loop pool' matched_jobs' jobs_checked
        | Raise _ => scoring_loop pool' matched_jobs jobs_checked
        end
  end.
End Loop.

(** The renumbering loop: [enumerate(matched_jobs, 1)]. *)
Fixpoint ranked_sections (rank : nat) (matched_jobs : list scored)
    : list string :=
  match matched_jobs with
  | [] => []
  | (score, job_data, section) :: rest =>
      sub1 job_label ("### Job #" +:+ pretty rank +:+ ":") section
      :: ranked_sections (S rank) rest
  end.

Definition join (parts : list string) : string :=
  foldr String.append EmptyString parts.

Definition no_match_message (threshold : string) (jobs_checked n_all : nat)
    : string :=
  nl +:+ "⚠️ **No jobs found above " +:+ threshold +:+ "% match threshold.**"
  +:+ nl +:+ nl
  +:+ "I checked " +:+ pretty jobs_checked
  +:+ " jobs from the database (pre-filtered from " +:+ pretty n_all
  +:+ " candidates), but none met the " +:+ threshold +:+ "% match threshold."
  +:+ nl +:+ nl
  +:+ "Consider:" +:+ nl
  +:+ "- Expanding your search criteria" +:+ nl
  +:+ "- Adjusting the match threshold" +:+ nl
  +:+ "- Reviewing jobs with lower scores to see if any are still relevant".

Definition final_response (threshold : string) (matched_jobs : list scored)
    : string :=
  let header :=
    "## 🎯 " +:+ pretty (length matched_jobs)
    +:+ " Job Matches Found (First " +:+ pretty (length matched_jobs)
    +:+ " Above " +:+ threshold +:+ "% Threshold)" +:+ nl +:+ nl in
  header +:+ join (ranked_sections 1 matched_jobs).

(** [max_candidates], by the size of the corpus. *)
Definition max_candidates (total_jobs : Z) : Z :=
  if (total_jobs <=? 500)%Z then Z.min 50 total_jobs
  else if (total_jobs <=? 5000)%Z then Z.min 50 total_jobs
  else Z.min 75 total_jobs.

(** The body of the outer [try] of [process]. *)
Definition process_body (query : string)
    (resume_text n_results min_match_score : PyVal) : M string :=
  do stats <- (fun t => (get_stats, t ++ [EvStats]));
  let total_jobs := default 0%Z (stats !! "total_jobs") in
  if (total_jobs =? 0)%Z then ret no_jobs_in_database
  else
    do search_query <- lift (search_query_of resume_text);
    let n := max_candidates total_jobs in
    do all_job_results <-
      (fun t => (retrieve_jobs search_query n, t ++ [EvRetrieve search_query n]));
    match all_job_results with
    | [] => ret no_matching_jobs
    | _ :: _ =>
        let pre_filtered_jobs := pre_filter all_job_results in
        do threshold <- lift (format_threshold min_match_score);
        do found <-
          scoring_loop query (text_of resume_text) n_results min_match_score
                       pre_filtered_jobs [] 0;
        let matched_jobs := found.1 in
        let jobs_checked := found.2 in
        match matched_jobs with
        | [] => ret (no_match_message threshold jobs_checked
                                      (length all_job_results))
        | _ :: _ => ret (final_response threshold matched_jobs)
        end
    end.

(** [JobMatcherAgent.process(query, context)] *)
Definition process (query : string) (context : option (gmap string PyVal))
    : M string :=
  if negb (validate_context context ["resume_text"])
  then ret (format_error_response resume_missing)
  else
    let ctx := default ∅ context in
    let resume_text := default VNone (ctx !! "resume_text") in
    let n_results := default (VInt 5) (ctx !! "n_results") in
    let min_match_score :=
      default (VFloat MIN_JOB_MATCH_SCORE) (ctx !! "min_match_score") in
    try_except (process_body query resume_text n_results min_match_score)
               (fun e => ret (format_error_response (exc_text e))).

End Agent.

(** ** Concrete collaborators, for the examples *)

Module Demo.

Definition job (n : nat) (name : string) (similarity : Q) : Job :=
  mkJob n name "A job description." ∅ similarity (1 - similarity).

(** A prompt builder that starts the prompt with the id of the job. *)
Definition build (resume_text : string) (job_results : list Job)
    (user_query : string) : string :=
  match job_results with
  | j :: _ => id j +:+ " | " +:+ resume_text
  | [] => resume_text
  end.

Definition exc_text (e : exc) : string :=
  match e with
  | TypeError => "TypeError"
  | ValueError => "ValueError"
  | Failure msg => msg
  end.

(** A completion service that answers by the id the prompt starts with. *)
Definition answers (table : list (string * outcome (option string)))
    (calls : nat) (prompt system_prompt : string)
    : outcome (option string) :=
  match List.find (fun row => String.prefix (fst row) prompt) table with
  | Some row => snd row
  | None => Ret None
  end.

Definition analysis (n : nat) (title : string) (percent : string) : string :=
  "### Job #" +:+ pretty n +:+ ": " +:+ title +:+ nl
  +:+ "**Overall Match Score:** " +:+ percent +:+ "%" +:+ nl.

Definition context (n_results : Z) (min_match_score : Q)
    : option (gmap string PyVal) :=
  Some {[ "resume_text" := VStr "Skills: Python, SQL";
          "n_results" := VInt n_results;
          "min_match_score" := VFloat min_match_score ]}.

Definition stats (total_jobs : Z) : outcome (gmap string Z) :=
  Ret {[ "total_jobs" := total_jobs; "total_resumes" := 0%Z ]}.

(** The agent over a corpus answer [pool] and a table of completions. *)
Definition agent (pool : list Job)
    (table : list (string * outcome (option string)))
    (query : string) (ctx : option (gmap string PyVal)) : M string :=
  process (stats (Z.of_nat (length pool))) (fun _ _ => Ret pool)
          (answers table) exc_text "system prompt" build (fun s => s)
          (fun x => pretty (Qfloor (x * 100)))
          query ctx.

Definition loop (table : list (string * outcome (option string)))
    (n_results : Z) (min_match_score : Q) (pool : list Job)
    : M (list scored * nat) :=
  scoring_loop (answers table) exc_text "system prompt" build
               "find jobs" "Skills: Python, SQL"
               (VInt n_results) (VFloat min_match_score) pool [] 0.

(** Two candidates in pool order, the first scoring 70%, the second 90%. *)
Definition low_then_high : list Job := [job 1 "A" 0.8; job 2 "B" 0.7].
Definition low_then_high_table : list (string * outcome (option string)) :=
  [("A", Ret (Some (analysis 1 "Analyst" "70")));
   ("B", Ret (Some (analysis 2 "Engineer" "90")))].

(** A response with neither a job header nor a score. *)
Definition no_header_table : list (string * outcome (option string)) :=
  [("A", Ret (Some "I cannot assess this job."))].

(** A provider error whose message reads like an analysis. *)
Definition failing_table : list (string * outcome (option string)) :=
  [("A", Raise (Failure ("Error generating response from openai: "
                         +:+ "### Job #1: Overall Match Score: 99%")))].

(** A response that gives more than a hundred percent. *)
Definition over_table : list (string * outcome (option string)) :=
  [("A", Ret (Some (analysis 1 "Analyst" "150")))].

End Demo.

(** The ways a response can state a score. *)
Inductive score_format : Type :=
| OverallPlain      (* Overall Match Score: N% *)
| OverallBold       (* **Overall Match Score:** N% *)
| OverallBoldLabel  (* **Overall Match Score**: N% *)
| MatchScore        (* Match Score: N% *)
| PercentMatch.     (* N% match *)

Definition format_score (f : score_format) (percentage : N) : string :=
  match f with
  | OverallPlain => "Overall Match Score: " +:+ pretty percentage +:+ "%"
  | OverallBold => "**Overall Match Score:** " +:+ pretty percentage +:+ "%"
  | OverallBoldLabel => "**Overall Match Score**: " +:+ pretty percentage +:+ "%"
  | MatchScore => "Match Score: " +:+ pretty percentage +:+ "%"
  | PercentMatch => pretty percentage +:+ "% match"
  end.

(** [percentage / 100.0] *)
Definition percent_score (percentage : N) : Q :=
  ((Z.of_N percentage # 1) / 100)%Q.

(** ** [Retriever.retrieve_jobs] *)

Module Retriever.

(** What [ChromaManager.search_jobs] returns: four lists, one entry per
    result. *)
Record SearchResults : Type := mkResults {
  documents : list string;
  metadatas : list (gmap string PyVal);
  distances : list Q;
  ids : list string
}.

(** [settings.TOP_K_RETRIEVAL] *)
Definition TOP_K_RETRIEVAL : Z := 3.

(** The loop over [enumerate(zip(documents, metadatas, distances, ids))],
    from position [i]. *)
Fixpoint jobs_from (i : nat) (docs : list string)
    (metas : list (gmap string PyVal)) (dists : list Q)
    (doc_ids : list string) : list Job :=
  match docs, metas, dists, doc_ids with
  | doc :: docs', metadata :: metas', distance :: dists', doc_id :: doc_ids' =>
      mkJob (i + 1) doc_id doc metadata (1 - distance) distance
      :: jobs_from (S i) docs' metas' dists' doc_ids'
  | _, _, _, _ => []
  end.

(** [n_results or settings.TOP_K_RETRIEVAL] *)
Definition requested (n_results : option Z) : Z :=
  match n_results with
  | Some n => if (n =? 0)%Z then TOP_K_RETRIEVAL else n
  | None => TOP_K_RETRIEVAL
  end.

(** [retrieve_jobs(query, n_results)], without filters, over the search
    of the vector store. *)
Definition retrieve_jobs (search_jobs : string -> Z -> outcome SearchResults)
    (query : string) (n_results : option Z) : outcome (list Job) :=
  match search_jobs query (requested n_results) with
  | Ret results =>
      Ret (jobs_from 0 (documents results) (metadatas results)
                     (distances results) (ids results))
  | Raise e => Raise e
  end.

End Retriever.

(** The similarities never increase along the list. *)
Definition ranked (jobs : list Job) : Prop :=
  StronglySorted (fun a b => (similarity_score b <= similarity_score a)%Q) jobs.

(** ** What the scoring loop accepts *)

Section Accepted.
Variable llm_generate : nat -> string -> string -> outcome (option string).
Variable exc_text : exc -> string.
Variable get_system_prompt : string.
Variable build_job_matching_context : string -> list Job -> string -> string.
Variables (query resume_text : string) (min_match_score : PyVal).

(** The entry the [try] block appends for [job] when its completion is
    the call number [calls], or [None] when it appends nothing. *)
Definition verdict (calls : nat) (job : Job) : option scored :=
  let context_text :=
    build_job_matching_context resume_text [job] query
    +:+ threshold_instruction in
  let response :=
    match llm_generate calls context_text get_system_prompt with
    | Ret response => response
    | Raise e => Some (apology (exc_text e))
    end in
  match response with
  | None => None
  | Some text =>
      match _parse_job_scores_from_response text [job] 1 with
      | [] => None
      | (score, job_data, section) :: _ =>
          match py_score_ge score min_match_score with
          | Ret true => Some (score, job_data, section)
          | _ => None
          end
      end
  end.

(** The entries of all candidates of [pool], were each one asked about. *)
Fixpoint accepted (calls : nat) (pool : list Job) : list scored :=
  match pool with
  | [] => []
  | job :: pool' =>
      match verdict calls job with
      | Some entry => entry :: accepted (S calls) pool'
      | None => accepted (S calls) pool'
      end
  end.
End Accepted.

(** ** [_filter_by_match_score] *)

(** An entry of [scored_sections]: the score, the section and the number
    the section had in the response. *)
Definition section_entry : Type := Q * string * nat.

(** [scored_sections.sort(key=lambda x: x[0], reverse=True)]. The sort of
    Python is stable, and entries of equal score keep their order under
    [reverse=True] too. *)
Fixpoint insert_by_score (x : section_entry) (sorted : list section_entry)
    : list section_entry :=
  match sorted with
  | [] => [x]
  | y :: sorted' =>
      if Qle_bool y.1.1 x.1.1 then x :: sorted
      else y :: insert_by_score x sorted'
  end.

Definition sort_by_score (entries : list section_entry)
    : list section_entry :=
  foldr insert_by_score [] entries.

(** The loop [for i, section in enumerate(job_sections[1:], 1)]: a section
    is kept when a score is found in it that reaches [min_score]. *)
Fixpoint scored_sections (sections : list string) (i : nat) (min_score : Q)
    : list section_entry :=
  match sections with
  | [] => []
  | section :: sections' =>
      let rest := scored_sections sections' (S i) min_score in
      match find_score score_patterns section with
      | Some score_value =>
          if Qle_bool min_score score_value
          then (score_value, section, i) :: rest
          else rest
      | None => rest
      end
  end.

(** The slice [xs[:stop]]; a negative [stop] counts from the end. *)
Definition slice_to {A} (xs : list A) (stop : Z) : list A :=
  if (0 <=? stop)%Z then take (Z.to_nat stop) xs
  else take (length xs - Z.to_nat (- stop)) xs.

Definition top_scored (response : string) (min_score : Q) (max_results : Z)
    : list section_entry :=
  let job_sections := split job_header response in
  slice_to (sort_by_score (scored_sections (tail job_sections) 1 min_score))
           max_results.

(** The renumbering loop: [enumerate(top_scored, 1)]. *)
Fixpoint top_sections (rank : nat) (entries : list section_entry)
    : list string :=
  match entries with
  | [] => []
  | (score_value, section, original_job_num) :: rest =>
      sub1 job_label ("### Job #" +:+ pretty rank +:+ ":") section
      :: top_sections (S rank) rest
  end.

(** The text added when no section is left; [threshold] is
    [f"{min_score*100:.0f}"]. *)
Definition none_above_threshold (threshold : string) (analyzed : nat)
    : string :=
  nl +:+ nl +:+ "⚠️ **No jobs found above " +:+ threshold
  +:+ "% match threshold.**" +:+ nl +:+ nl
  +:+ "I analyzed " +:+ pretty analyzed
  +:+ " jobs from the database, but none met the " +:+ threshold
  +:+ "% match threshold." +:+ nl +:+ nl
  +:+ "Consider:" +:+ nl
  +:+ "- Expanding your search criteria" +:+ nl
  +:+ "- Adjusting the match threshold" +:+ nl
  +:+ "- Reviewing jobs with lower scores to see if any are still relevant".

Definition _filter_by_match_score (percent0 : Q -> string)
    (response : string) (min_score : Q) (job_results : list Job)
    (max_results : Z) : string :=
  let job_sections := split job_header response in
  if decide (length job_sections ≤ 1) then response
  else
    let header_section := default EmptyString (head job_sections) in
    let sections :=
      top_sections 1 (top_scored response min_score max_results) in
    let filtered_response := header_section +:+ join sections in
    match sections with
    | [] =>
        filtered_response
        +:+ none_above_threshold (percent0 min_score) (length job_results)
    | _ :: _ => filtered_response
    end.

(** The order of the entries after the sort: a higher score first, and
    among equal scores the section that came first in the response. *)
Definition ranks_before (a b : section_entry) : Prop :=
  (b.1.1 < a.1.1)%Q ∨ ((b.1.1 == a.1.1)%Q ∧ a.2 < b.2).

(** ** [SupervisorAgent.process] *)

Module Supervisor.
Import Text.

Definition greetings : list string :=
  ["hi"; "hello"; "hey"; "good morning"; "good afternoon"; "good evening";
   "howdy"; "greetings"].

Definition casual : list string :=
  ["how are you"; "whats up"; "what's up"; "thanks"; "thank you"; "bye";
   "goodbye"; "ok"; "okay"; "yes"; "no"].

Definition job_phrases : list string :=
  ["find job"; "find me job"; "search job"; "match job"; "matching job";
   "show job"; "get job"; "jobs for"; "jobs that match"].

Definition resume_phrases : list string :=
  ["review resume"; "check resume"; "improve resume"; "feedback on resume";
   "resume review"; "resume feedback"].

Definition interview_phrases : list string :=
  ["interview prep"; "interview question"; "prepare interview";
   "interview help"; "practice interview"].

Definition job_words : list string :=
  ["job"; "jobs"; "position"; "positions"; "role"; "roles"; "opening";
   "vacancy"].

(** [self.available_agents] *)
Definition available_agents : list string :=
  ["job_matcher"; "resume_coach"; "interview_prep"].

(** [any(word in text for word in words)] *)
Definition any_in (words : list string) (text : string) : bool :=
  existsb (fun word => contains word text) words.

Definition quote : string := String (ascii_of_nat 34) EmptyString.

Definition routing_prompt (query : string) : string :=
  "Classify this query into ONE category:" +:+ nl +:+ nl
  +:+ "Query: " +:+ quote +:+ query +:+ quote +:+ nl +:+ nl
  +:+ "job_matcher: Finding jobs, job search, job recommendations, which jobs to apply"
  +:+ nl
  +:+ "resume_coach: Resume review, resume improvement, resume feedback  "
  +:+ nl
  +:+ "interview_prep: Interview questions, interview preparation" +:+ nl
  +:+ "general: Greetings, casual chat, out of scope" +:+ nl +:+ nl
  +:+ "Response (one word):".

Section Routing.
(** [str.lower], [str.strip] and [len(str.split())], which follow
    Unicode, are left open. *)
Variable lower : string -> string.
Variable strip : string -> string.
Variable word_count : string -> nat.
Variable llm_generate : nat -> string -> string -> outcome (option string).
Variable exc_text : exc -> string.
(** [PromptTemplates.get_supervisor_prompt()] *)
Variable get_system_prompt : string.

(** The [for] loop over [self.available_agents + ['general']]; [None]
    when it ends without a [return]. *)
Definition named_agent (agent_name : string) : option string :=
  List.find (fun available_agent => contains available_agent agent_name)
            (available_agents ++ ["general"]).

(** The [try] block of the fallback. [response.strip()] raises on [None],
    and the [except] clause goes on to the default. *)
Definition llm_route (query : string) : M string :=
  do response <-
    generate_response llm_generate exc_text get_system_prompt
                      (routing_prompt query);
  match response with
  | None => ret "general"
  | Some text =>
      let agent_name := lower (strip text) in
      match named_agent agent_name with
      | Some available_agent => ret available_agent
      | None => ret "general"
      end
  end.

(** The keyword checks after the one for short queries. *)
Definition keyword_route (query_lower : string) : option string :=
  if any_in job_phrases query_lower then Some "job_matcher"
  else if any_in resume_phrases query_lower then Some "resume_coach"
  else if any_in interview_phrases query_lower then Some "interview_prep"
  else if contains "resume" query_lower && negb (contains "job" query_lower)
  then Some "resume_coach"
  else if contains "interview" query_lower then Some "interview_prep"
  else if any_in job_words query_lower then Some "job_matcher"
  else None.

(** The check for very short queries: does it return ['general']? *)
Definition short_and_casual (query query_lower : string) : bool :=
  if word_count query <=? 3 then
    if any_in greetings query_lower then true
    else if any_in casual query_lower then true
    else false
  else false.

(** [SupervisorAgent.process(query)]; the context is not looked at. *)
Definition process (query : string) : M string :=
  let query_lower := strip (lower query) in
  if short_and_casual query query_lower then ret "general"
  else
    match keyword_route query_lower with
    | Some agent => ret agent
    | None => llm_route query
    end.

End Routing.
End Supervisor.

(** ** The string methods on ASCII text, for the examples *)

Module RoutingDemo.

Fixpoint lower (s : string) : string :=
  match s with
  | EmptyString => EmptyString
  | String c s' => String (Text.lower c) (lower s')
  end.

Fixpoint lstrip (s : string) : string :=
  match s with
  | String c s' => if Text.is_space c then lstrip s' else s
  | EmptyString => EmptyString
  end.

Definition strip (s : string) : string :=
  String.rev (lstrip (String.rev (lstrip s))).

Definition word_count (s : string) : nat := length (String.words s).

(** The supervisor over a language model that always gives [reply]. *)
Definition supervisor (reply : outcome (option string)) (query : string)
    : M string :=
  Supervisor.process lower strip word_count (fun _ _ _ => reply)
                     Demo.exc_text "supervisor prompt" query.

End RoutingDemo.

(** * Properties *)

(** ** Context validation *)

Lemma validate_context_spec (context : option (gmap string PyVal))
    (required_keys : list string) :
  required_keys ≠ [] →
  validate_context context required_keys = true ↔
  ∃ ctx, context = Some ctx ∧ ∀ key, key ∈ required_keys → is_Some (ctx !! key).
Proof.
  intros Hne. unfold validate_context. destruct context as [ctx|].
  - destruct (decide (ctx = ∅)) as [->|Hctx].
    + split; [done|]. intros (ctx & [= <-] & Hall).
      destruct required_keys as [|k ks]; [done|].
      destruct (Hall k) as [v Hv]; [left|]. by rewrite lookup_empty in Hv.
    + destruct (filter _ required_keys) as [|k ks] eqn:Hf.
      * split; [|done]. intros _. exists ctx. split; [done|].
        intros key Hkey. destruct (ctx !! key) eqn:Hk; [by eexists|].
        assert (key ∈ filter (λ key, ctx !! key = None) required_keys) as Hin
          by (apply list_elem_of_filter; done).
        rewrite Hf in Hin. by apply elem_of_nil in Hin.
      * split; [done|]. intros (ctx' & [= <-] & Hall).
        assert (k ∈ filter (λ key, ctx !! key = None) required_keys) as Hin
          by (rewrite Hf; left).
        apply list_elem_of_filter in Hin as [Hnone Hin].
        destruct (Hall k Hin) as [v Hv]. congruence.
  - split; [done|]. by intros (ctx & [=] & _).
Qed.

Lemma validate_resume_text (context : option (gmap string PyVal)) :
  validate_context context ["resume_text"] = true ↔
  ∃ ctx, context = Some ctx ∧ is_Some (ctx !! "resume_text").
Proof.
  rewrite validate_context_spec by done. split.
  - intros (ctx & -> & Hall). exists ctx. split; [done|]. apply Hall. left.
  - intros (ctx & -> & Hk). exists ctx. split; [done|].
    intros key Hkey. apply list_elem_of_singleton in Hkey. by subst.
Qed.

(** ** The pre-filter *)

Lemma keeps_iff (job : Job) :
  Qle_bool min_semantic_similarity (similarity_score job) = true
  ↔ ¬ (similarity_score job < 0.35)%Q.
Proof.
  rewrite Qle_bool_iff. unfold min_semantic_similarity. split.
  - intros H1 H2. by apply (Qlt_not_le _ _ H2).
  - apply Qnot_lt_le.
Qed.

Lemma sublist_filter_max {A} (P : A → Prop) `{∀ x, Decision (P x)}
    (kept l : list A) :
  kept `sublist_of` l → Forall P kept → kept `sublist_of` filter P l.
Proof.
  induction 1 as [|x l1 l2 _ IH|x l1 l2 _ IH]; intros HP.
  - done.
  - apply Forall_cons in HP as [Hx HP]. rewrite filter_cons_True by done.
    by constructor; apply IH.
  - rewrite filter_cons. destruct (decide (P x)); [constructor|]; by apply IH.
Qed.

(** C4. The pre-filter keeps, in their order, exactly the candidates whose
    similarity is not below 0.35: the result is a sublist of the retrieved
    list, a candidate is in it if and only if it was retrieved and its
    similarity is not strictly less than 0.35, every sublist of such
    candidates is still a sublist of the result, and a candidate at exactly
    0.35 stays while one at 0.3499 goes. *)
Theorem pre_filter_boundary (all_job_results : list Job) :
  pre_filter all_job_results `sublist_of` all_job_results
  ∧ (∀ job, job ∈ pre_filter all_job_results ↔
            job ∈ all_job_results ∧ ¬ (similarity_score job < 0.35)%Q)
  ∧ (∀ kept, kept `sublist_of` all_job_results →
       Forall (λ job, ¬ (similarity_score job < 0.35)%Q) kept →
       kept `sublist_of` pre_filter all_job_results)
  ∧ (∀ at_bound below,
       similarity_score at_bound = 0.35%Q →
       similarity_score below = 0.3499%Q →
       pre_filter [at_bound; below] = [at_bound]
       ∧ pre_filter [below; at_bound] = [at_bound]).
Proof.
  unfold pre_filter. split; [|split; [|split]].
  - apply sublist_filter.
  - intros job. rewrite list_elem_of_filter, keeps_iff. tauto.
  - intros kept Hsub Hall. apply sublist_filter_max; [done|].
    eapply Forall_impl; [exact Hall|]. intros job. by rewrite keeps_iff.
  - intros at_bound below H1 H2.
    rewrite !filter_cons, filter_nil, H1, H2. done.
Qed.

Lemma pre_filter_boundary_witness :
  let at_bound := Demo.job 1 "A" 0.35 in
  let below := Demo.job 2 "B" 0.3499 in
  [at_bound] `sublist_of` [at_bound; below]
  ∧ Forall (λ job, ¬ (similarity_score job < 0.35)%Q) [at_bound]
  ∧ [at_bound] `sublist_of` pre_filter [at_bound; below]
  ∧ pre_filter [at_bound; below] = [at_bound].
Proof.
  intros at_bound below.
  assert ([at_bound] `sublist_of` [at_bound; below]) as Hsub
    by (apply sublist_skip, sublist_nil_l).
  assert (Forall (λ job, ¬ (similarity_score job < 0.35)%Q) [at_bound]) as Hall
    by (repeat constructor; by vm_compute).
  split; [exact Hsub|]. split; [exact Hall|]. split.
  - exact (proj1 (proj2 (proj2 (pre_filter_boundary [at_bound; below])))
             [at_bound] Hsub Hall).
  - exact (proj1 (proj2 (proj2 (proj2 (pre_filter_boundary [])))
                    at_bound below eq_refl eq_refl)).
Defined.

(** ** Counting calls, and the renumbering *)

Lemma completion_calls_app (t1 t2 : list event) :
  completion_calls (t1 ++ t2) = completion_calls t1 + completion_calls t2.
Proof.
  induction t1 as [|e t1 IH]; [done|]. cbn [app completion_calls].
  rewrite IH. lia.
Qed.

Lemma ranked_sections_imap (matched_jobs : list scored) : ∀ rank,
  ranked_sections rank matched_jobs
  = imap (λ i (x : scored),
            sub1 job_label ("### Job #" +:+ pretty (rank + i) +:+ ":") x.2)
         matched_jobs.
Proof.
  induction matched_jobs as [|[[score job] section] rest IH]; intros rank;
    [done|].
  cbn [ranked_sections imap]. rewrite Nat.add_0_r. f_equal.
  rewrite IH. apply imap_ext. intros i x _. cbn.
  by rewrite Nat.add_succ_r.
Qed.

(** ** The parser on a single candidate *)

Lemma score_sections_cons section sections i job_results start_job_num :
  score_sections (section :: sections) i job_results start_job_num =
    match job_results !! (start_job_num - 1 + i) with
    | Some job_data =>
        (default 0%Q (find_score score_patterns section), job_data, section)
        :: score_sections sections (S i) job_results start_job_num
    | None => score_sections sections (S i) job_results start_job_num
    end.
Proof.
  cbn [score_sections]. destruct (job_results !! _); [|done].
  by destruct (find_score score_patterns section).
Qed.

Lemma score_sections_past (sections : list string) (i : nat) (job : Job) :
  0 < i → score_sections sections i [job] 1 = [].
Proof.
  revert i. induction sections as [|section sections IH]; intros i Hi; [done|].
  rewrite score_sections_cons, IH by lia. destruct i; [lia|]. done.
Qed.

Lemma parse_single (response : string) (job : Job) :
  _parse_job_scores_from_response response [job] 1 =
    match tail (split job_header response) with
    | [] => []
    | section :: _ =>
        [(default 0%Q (find_score score_patterns section), job, section)]
    end.
Proof.
  unfold _parse_job_scores_from_response.
  destruct (tail _) as [|section sections]; [done|].
  rewrite score_sections_cons, score_sections_past by lia. done.
Qed.

(** ** Responses without header, and the range of scores *)

Lemma split_no_match (r : regex) (text : string) :
  search r text = None → split r text = [text].
Proof.
  intros Hnone. unfold split. destruct (String.length text); [done|].
  cbn [split_fuel]. by rewrite Hnone.
Qed.

Lemma score_candidate_no_header (n_results min : PyVal) text job matched_jobs :
  search job_header text = None →
  _parse_job_scores_from_response text [job] 1 = []
  ∧ score_candidate n_results min (Some text) job matched_jobs
    = Ret (matched_jobs, Continue).
Proof.
  intros Hnone. unfold score_candidate.
  rewrite parse_single, split_no_match by done. done.
Qed.

(** The scores the loop stores. *)
Lemma float_nonneg (s : string) (x : Q) : float s = Some x → (0 <= x)%Q.
Proof.
  unfold float. destruct (span_digits s) as [ip rest].
  destruct rest as [|c fp].
  - destruct (is_empty ip); [done|]. intros [= <-].
    unfold Qle; cbn; lia.
  - destruct (Ascii.eqb_spec c "."%char) as [->|Hc].
    + destruct (_ && _); [|done]. intros [= <-]. unfold Qle; cbn; lia.
    + destruct c as [[] [] [] [] [] [] [] []]; try done.
Qed.

Lemma find_score_nonneg (patterns : list regex) (section : string) (s : Q) :
  find_score patterns section = Some s →
  ∃ x, (0 <= x)%Q ∧ s = (x / 100)%Q.
Proof.
  induction patterns as [|pattern patterns IH]; [done|].
  cbn [find_score]. destruct (search pattern section) as [m|]; [|done].
  destruct (m_group1 m ≫= float) as [x|] eqn:Hx; [|done].
  intros [= <-]. exists x. split; [|done].
  destruct (m_group1 m) as [g|]; [|done]. by apply (float_nonneg g).
Qed.

Lemma percent_le_1 (x : Q) : (x / 100 <= 1 ↔ x <= 100)%Q.
Proof.
  unfold Qdiv, Qle. destruct x as [a b]. cbn. lia.
Qed.

Lemma percent_nonneg (x : Q) : (0 <= x → 0 <= x / 100)%Q.
Proof.
  unfold Qdiv, Qle. destruct x as [a b]. cbn. lia.
Qed.

(** ** The scoring loop *)

Section LoopProperties.
Variable llm_generate : nat -> string -> string -> outcome (option string).
Variable exc_text : exc -> string.
Variable get_system_prompt : string.
Variable build_job_matching_context : string -> list Job -> string -> string.
Variables (query resume_text : string) (n : Z) (min_match_score : PyVal).

Local Abbreviation loop :=
  (scoring_loop llm_generate exc_text get_system_prompt
     build_job_matching_context query resume_text (VInt n) min_match_score).
Local Abbreviation prompt_for job :=
  (build_job_matching_context resume_text [job] query +:+ threshold_instruction).
Local Abbreviation respond t job :=
  (generate_response llm_generate exc_text get_system_prompt (prompt_for job) t).

Lemma generate_response_trace prompt t :
  ∃ response,
    generate_response llm_generate exc_text get_system_prompt prompt t
    = (Ret response, t ++ [EvGenerate prompt get_system_prompt]).
Proof.
  unfold generate_response. destruct (llm_generate _ _ _); eauto.
Qed.

(** What the [try] block can do to [matched_jobs]. *)
Lemma score_candidate_cases response job matched_jobs :
  (∃ e, score_candidate (VInt n) min_match_score response job matched_jobs
        = Raise e)
  ∨ score_candidate (VInt n) min_match_score response job matched_jobs
    = Ret (matched_jobs, Continue)
  ∨ ∃ text section sections,
      response = Some text
      ∧ tail (split job_header text) = section :: sections
      ∧ py_score_ge (default 0%Q (find_score score_patterns section))
                    min_match_score = Ret true
      ∧ score_candidate (VInt n) min_match_score response job matched_jobs
        = Ret (matched_jobs
               ++ [(default 0%Q (find_score score_patterns section), job,
                    section)],
               if (n <=? Z.of_nat (length matched_jobs + 1))%Z
               then Break else Continue).
Proof.
  unfold score_candidate. destruct response as [text|]; [|left; eauto].
  rewrite parse_single.
  destruct (tail _) as [|section sections] eqn:Htail; [right; left; done|].
  destruct (py_score_ge _ _) as [[]|e] eqn:Hge; [|right;left;done|left;eauto].
  right; right. exists text, section, sections.
  split; [done|]. split; [done|]. split; [exact Hge|].
  cbn [py_len_ge]. rewrite length_app. cbn [length].
  by destruct (n <=? _)%Z.
Qed.

Lemma loop_stop pool matched_jobs jobs_checked t :
  (n ≤ Z.of_nat (length matched_jobs))%Z →
  loop pool matched_jobs jobs_checked t = (Ret (matched_jobs, jobs_checked), t).
Proof.
  intros Hn. destruct pool as [|job pool]; [done|].
  cbn [scoring_loop]. unfold bind, lift, py_len_ge.
  by rewrite (proj2 (Z.leb_le _ _) Hn).
Qed.

Lemma loop_step job pool matched_jobs jobs_checked t :
  (Z.of_nat (length matched_jobs) < n)%Z →
  loop (job :: pool) matched_jobs jobs_checked t =
    match respond t job with
    | (Ret response, t') =>
        match score_candidate (VInt n) min_match_score response job
                              matched_jobs with
        | Ret (matched_jobs', Break) =>
            (Ret (matched_jobs', S jobs_checked), t')
        | Ret (matched_jobs', Continue) =>
            loop pool matched_jobs' (S jobs_checked) t'
        | Raise _ => loop pool matched_jobs (S jobs_checked) t'
        end
    | (Raise e, t') => (Raise e, t')
    end.
Proof.
  intros Hn. cbn [scoring_loop]. unfold bind at 1. unfold lift, py_len_ge.
  rewrite (proj2 (Z.leb_gt _ _) Hn). unfold bind.
  destruct (respond t job) as [[response|e] t']; [|done].
  by destruct (score_candidate _ _ _ _ _) as [[matched_jobs' []]|].
Qed.

(** The master invariant of the loop. *)
Lemma loop_result pool : ∀ matched_jobs jobs_checked t,
  ∃ extra k t',
    loop pool matched_jobs jobs_checked t
      = (Ret (matched_jobs ++ extra, jobs_checked + k), t')
    ∧ ((Z.of_nat (length matched_jobs) ≤ n)%Z →
       (Z.of_nat (length (matched_jobs ++ extra)) ≤ n)%Z)
    ∧ map (λ x : scored, x.1.2) extra `sublist_of` pool
    ∧ Forall (λ x : scored,
                py_score_ge x.1.1 min_match_score = Ret true
                ∧ x.1.1 = default 0%Q (find_score score_patterns x.2)) extra
    ∧ completion_calls t' = completion_calls t + k
    ∧ k ≤ length pool.
Proof.
  induction pool as [|job pool IH]; intros matched_jobs jobs_checked t.
  { exists [], 0, t. rewrite app_nil_r, !Nat.add_0_r.
    split_and!; try done. }
  destruct (Z.le_gt_cases n (Z.of_nat (length matched_jobs))) as [Hstop|Hgo].
  { exists [], 0, t. rewrite loop_stop by done.
    rewrite app_nil_r, !Nat.add_0_r. split_and!; try done.
    - apply sublist_nil_l.
    - cbn [length]; lia. }
  rewrite loop_step by done.
  destruct (generate_response_trace (prompt_for job) t) as [response ->].
  assert (completion_calls (t ++ [EvGenerate (prompt_for job) get_system_prompt])
          = completion_calls t + 1) as Hcalls
    by (by rewrite completion_calls_app).
  assert (∀ m, ∃ extra k t',
    loop pool m (S jobs_checked)
         (t ++ [EvGenerate (prompt_for job) get_system_prompt])
      = (Ret (m ++ extra, jobs_checked + S k), t')
    ∧ ((Z.of_nat (length m) ≤ n)%Z → (Z.of_nat (length (m ++ extra)) ≤ n)%Z)
    ∧ map (λ x : scored, x.1.2) extra `sublist_of` job :: pool
    ∧ Forall (λ x : scored,
                py_score_ge x.1.1 min_match_score = Ret true
                ∧ x.1.1 = default 0%Q (find_score score_patterns x.2)) extra
    ∧ completion_calls t' = completion_calls t + S k
    ∧ S k ≤ length (job :: pool)) as IH'.
  { intros m.
    destruct (IH m (S jobs_checked)
                (t ++ [EvGenerate (prompt_for job) get_system_prompt]))
      as (extra & k & t' & -> & Hlen & Hsub & Hall & Ht' & Hk).
    exists extra, k, t'.
    replace (jobs_checked + S k) with (S jobs_checked + k) by lia.
    split_and!; try done.
    - by constructor.
    - lia.
    - cbn [length]; lia. }
  destruct (score_candidate_cases response job matched_jobs)
    as [[e ->]|[->|(text & section & sections & -> & Htail & Hge & ->)]].
  - destruct (IH' matched_jobs) as (extra & k & t' & ?). by exists extra, (S k), t'.
  - destruct (IH' matched_jobs) as (extra & k & t' & ?). by exists extra, (S k), t'.
  - set (entry := (default 0%Q (find_score score_patterns section), job,
                   section) : scored).
    destruct (n <=? Z.of_nat (length matched_jobs + 1))%Z eqn:Hfull.
    + exists [entry], 1,
        (t ++ [EvGenerate (prompt_for job) get_system_prompt]).
      replace (jobs_checked + 1) with (S jobs_checked) by lia.
      split_and!; try done.
      * intros _. rewrite length_app. cbn [length]. lia.
      * cbn [map]. apply sublist_skip, sublist_nil_l.
      * by repeat constructor.
      * cbn [length]; lia.
    + destruct (IH (matched_jobs ++ [entry]) (S jobs_checked)
                (t ++ [EvGenerate (prompt_for job) get_system_prompt]))
        as (extra & k & t' & Heq & Hlen & Hsub & Hall & Ht' & Hk).
      exists (entry :: extra), (S k), t'.
      rewrite <- app_assoc in Heq, Hlen.
      replace (jobs_checked + S k) with (S jobs_checked + k) by lia.
      split_and!; try done.
      * intros _. apply Hlen.
        apply Z.leb_gt in Hfull. rewrite length_app. cbn [length]. lia.
      * cbn [map]. by apply sublist_skip.
      * by repeat constructor.
      * lia.
      * cbn [length]; lia.
Qed.

Lemma loop_app pre post : ∀ matched_jobs jobs_checked t,
  loop (pre ++ post) matched_jobs jobs_checked t =
    match loop pre matched_jobs jobs_checked t with
    | (Ret found, t') => loop post found.1 found.2 t'
    | (Raise e, t') => (Raise e, t')
    end.
Proof.
  induction pre as [|job pre IH]; intros matched_jobs jobs_checked t; [done|].
  destruct (Z.le_gt_cases n (Z.of_nat (length matched_jobs))) as [Hstop|Hgo].
  { by rewrite !loop_stop. }
  rewrite <- app_comm_cons, !loop_step by done.
  destruct (generate_response_trace (prompt_for job) t) as [response ->].
  destruct (score_candidate_cases response job matched_jobs)
    as [[e ->]|[->|(text & section & sections & -> & Htail & Hge & ->)]];
    [apply IH..|].
  destruct (n <=? Z.of_nat (length matched_jobs + 1))%Z eqn:Hfull;
    [|apply IH].
  cbn [fst snd]. rewrite loop_stop; [done|].
  apply Z.leb_le in Hfull. rewrite length_app. cbn [length]. lia.
Qed.

(** Scanning a prefix [pre] of the pool [pre ++ post], with a
    non-negative [n_results]. *)
Lemma loop_early_stop (pre post : list Job) (t : list event) :
  (0 ≤ n)%Z →
  ∃ matched_jobs jobs_checked t',
    loop pre [] 0 t = (Ret (matched_jobs, jobs_checked), t')
    ∧ loop (pre ++ post) [] 0 t = loop post matched_jobs jobs_checked t'
    ∧ (Z.of_nat (length matched_jobs) ≤ n)%Z
    ∧ (Z.of_nat (length matched_jobs) = n →
       loop (pre ++ post) [] 0 t = (Ret (matched_jobs, jobs_checked), t'))
    ∧ completion_calls t' = completion_calls t + jobs_checked
    ∧ jobs_checked ≤ length pre
    ∧ completion_calls t' ≤ completion_calls t + length (pre ++ post).
Proof.
  intros Hn.
  destruct (loop_result pre [] 0 t)
    as (extra & k & t' & Heq & Hlen & _ & _ & Hcalls & Hk).
  exists extra, k, t'. cbn [app Nat.add] in Heq.
  assert (loop (pre ++ post) [] 0 t = loop post extra k t') as Happ
    by (by rewrite loop_app, Heq).
  split_and!; try done.
  - by apply Hlen.
  - intros Hfull. rewrite Happ. apply loop_stop. lia.
  - rewrite length_app. lia.
Qed.

End LoopProperties.

(** ** The whole call *)

Section ProcessProperties.
Variable get_stats : outcome (gmap string Z).
Variable retrieve_jobs : string -> Z -> outcome (list Job).
Variable llm_generate : nat -> string -> string -> outcome (option string).
Variable exc_text : exc -> string.
Variable get_system_prompt : string.
Variable build_job_matching_context : string -> list Job -> string -> string.
Variable _extract_key_resume_info : string -> string.
Variable percent0 : Q -> string.

Local Abbreviation run :=
  (process get_stats retrieve_jobs llm_generate exc_text get_system_prompt
     build_job_matching_context _extract_key_resume_info percent0).

(** C10. Validation of the context passes exactly when the context is a
    dictionary holding the key [resume_text] (and, for any non-empty list
    of required keys, exactly when it holds every one of them); and when
    the context is None, empty, or lacks the key [resume_text], [process]
    returns the formatted request for the resume and logs no call at
    all. *)
Theorem process_without_resume (query : string)
    (context : option (gmap string PyVal)) (t : list event) :
  (validate_context context ["resume_text"] = true ↔
     ∃ ctx, context = Some ctx ∧ is_Some (ctx !! "resume_text"))
  ∧ (∀ required_keys, required_keys ≠ [] →
       validate_context context required_keys = true ↔
       ∃ ctx, context = Some ctx
              ∧ ∀ key, key ∈ required_keys → is_Some (ctx !! key))
  ∧ ((context = None ∨ context = Some ∅
      ∨ ∃ ctx, context = Some ctx ∧ ctx !! "resume_text" = None) →
     run query context t
     = (Ret (format_error_response resume_missing), t)).
Proof.
  pose proof (validate_resume_text context) as Hv.
  split; [exact Hv|].
  split; [intros required_keys; apply validate_context_spec|].
  intros Hbad. unfold process.
  destruct (validate_context context ["resume_text"]) eqn:Hval; [|done].
  exfalso. destruct (proj1 Hv eq_refl) as (ctx & -> & [v Hlook]).
  destruct Hbad as [?|[[= ->]|(ctx' & [= <-] & Hnone)]]; [done| |congruence].
  by rewrite lookup_empty in Hlook.
Qed.

(** C3. With a resume in the context and a corpus that counts no job,
    [process] returns the "no jobs in the database" message after the
    statistics call alone, with no retrieval and no completion in the
    trace; that message differs from every "no jobs above the threshold"
    message and from the "no matching jobs" message.  The "no jobs above
    the threshold" message is what a corpus with one candidate scoring 50%
    gets under a threshold of 60%. *)
Theorem empty_corpus (query : string) (context : option (gmap string PyVal))
    (stats : gmap string Z) (t : list event) :
  validate_context context ["resume_text"] = true →
  get_stats = Ret stats →
  default 0%Z (stats !! "total_jobs") = 0%Z →
  run query context t = (Ret no_jobs_in_database, t ++ [EvStats])
  ∧ (∀ threshold jobs_checked n_all,
       no_jobs_in_database ≠ no_match_message threshold jobs_checked n_all)
  ∧ no_jobs_in_database ≠ no_matching_jobs
  ∧ (∃ t',
       Demo.agent [Demo.job 1 "A" 0.8]
                  [("A", Ret (Some (Demo.analysis 1 "Analyst" "50")))]
                  "find jobs" (Demo.context 5 0.6) []
       = (Ret (no_match_message "60" 1 1), t')).
Proof.
  intros Hval Hstats Hzero. split_and!.
  - unfold process. rewrite Hval. simpl.
    unfold try_except, process_body, bind. rewrite Hstats, Hzero. done.
  - intros threshold jobs_checked n_all. unfold no_match_message. done.
  - done.
  - eexists. vm_compute. reflexivity.
Qed.

(** The path of [process] that reaches the scoring loop. *)
Lemma process_main_path (query resume : string) (ctx : gmap string PyVal)
    (stats : gmap string Z) (all_job_results : list Job)
    (threshold : string) (t : list event) :
  let total_jobs := default 0%Z (stats !! "total_jobs") in
  let n_results := default (VInt 5) (ctx !! "n_results") in
  let min_match_score :=
    default (VFloat MIN_JOB_MATCH_SCORE) (ctx !! "min_match_score") in
  let search_query := _extract_key_resume_info resume in
  ctx !! "resume_text" = Some (VStr resume) →
  get_stats = Ret stats →
  total_jobs ≠ 0%Z →
  retrieve_jobs search_query (max_candidates total_jobs)
    = Ret all_job_results →
  all_job_results ≠ [] →
  format_threshold percent0 min_match_score = Ret threshold →
  run query (Some ctx) t =
    match scoring_loop llm_generate exc_text get_system_prompt
            build_job_matching_context query resume n_results
            min_match_score (pre_filter all_job_results) [] 0
            (t ++ [EvStats]
               ++ [EvRetrieve search_query (max_candidates total_jobs)]) with
    | (Ret found, t') =>
        (Ret match found.1 with
             | [] => no_match_message threshold found.2
                                      (length all_job_results)
             | _ :: _ => final_response threshold found.1
             end, t')
    | (Raise e, t') => (Ret (format_error_response (exc_text e)), t')
    end.
Proof.
  intros total_jobs n_results min_match_score search_query
         Hresume Hstats Htotal Hretrieve Hall Hthreshold.
  unfold process.
  assert (validate_context (Some ctx) ["resume_text"] = true) as ->.
  { apply (proj2 (validate_resume_text _)). exists ctx. split; [done|].
    by eexists. }
  cbn [negb default from_option Datatypes.id]. rewrite Hresume.
  cbn [default from_option Datatypes.id].
  fold n_results min_match_score.
  unfold try_except, process_body, bind, lift. rewrite Hstats.
  fold total_jobs. rewrite (proj2 (Z.eqb_neq _ _) Htotal).
  cbn [search_query_of]. fold search_query. rewrite Hretrieve.
  destruct all_job_results as [|job rest]; [done|].
  rewrite Hthreshold. cbn [text_of]. rewrite <- app_assoc.
  destruct (scoring_loop _ _ _ _ _ _ _ _ _ _ _ _) as [[[m jc]|e] t']; [|done].
  cbn [fst snd ret]. by destruct m.
Qed.

(** C1. With a non-negative [n_results], scan any prefix [pre] of the
    pool [pre ++ post]: the loop returns normally, the run over the whole
    pool passes through the state reached after [pre], the number of
    accepted matches there is at most [n_results], and once it equals
    [n_results] the run over the whole pool ends in that very state with
    that very trace, so nothing is asked about the candidates of [post];
    one completion call is logged per checked candidate, at most one per
    candidate of the pool.  And a call of [process] that reaches the loop
    logs at most as many completion calls as there are pre-filtered
    candidates. *)
Theorem scoring_loop_early_stop (n : Z) :
  (0 ≤ n)%Z →
  (∀ query resume min_match_score pre post t,
     let loop :=
       scoring_loop llm_generate exc_text get_system_prompt
         build_job_matching_context query resume (VInt n) min_match_score in
     ∃ matched_jobs jobs_checked t',
       loop pre [] 0 t = (Ret (matched_jobs, jobs_checked), t')
       ∧ loop (pre ++ post) [] 0 t = loop post matched_jobs jobs_checked t'
       ∧ (Z.of_nat (length matched_jobs) ≤ n)%Z
       ∧ (Z.of_nat (length matched_jobs) = n →
          loop (pre ++ post) [] 0 t = (Ret (matched_jobs, jobs_checked), t'))
       ∧ completion_calls t' = completion_calls t + jobs_checked
       ∧ jobs_checked ≤ length pre
       ∧ completion_calls t' ≤ completion_calls t + length (pre ++ post))
  ∧ (∀ query resume ctx stats all_job_results threshold t,
       ctx !! "resume_text" = Some (VStr resume) →
       default (VInt 5) (ctx !! "n_results") = VInt n →
       get_stats = Ret stats →
       default 0%Z (stats !! "total_jobs") ≠ 0%Z →
       retrieve_jobs (_extract_key_resume_info resume)
         (max_candidates (default 0%Z (stats !! "total_jobs")))
         = Ret all_job_results →
       all_job_results ≠ [] →
       format_threshold percent0
         (default (VFloat MIN_JOB_MATCH_SCORE) (ctx !! "min_match_score"))
         = Ret threshold →
       ∃ response t',
         run query (Some ctx) t = (Ret response, t')
         ∧ completion_calls t'
           ≤ completion_calls t + length (pre_filter all_job_results)).
Proof.
  intros Hn. split.
  - intros query resume min_match_score pre post t loop.
    by apply loop_early_stop.
  - intros query resume ctx stats all_job_results threshold t
           Hresume Hcount Hstats Htotal Hretrieve Hall Hthreshold.
    rewrite (process_main_path query resume ctx stats all_job_results
               threshold t Hresume Hstats Htotal Hretrieve Hall Hthreshold).
    rewrite Hcount.
    destruct (loop_early_stop llm_generate exc_text get_system_prompt
                build_job_matching_context query resume n
                (default (VFloat MIN_JOB_MATCH_SCORE)
                   (ctx !! "min_match_score"))
                (pre_filter all_job_results) []
                (t ++ [EvStats]
                   ++ [EvRetrieve (_extract_key_resume_info resume)
                         (max_candidates
                            (default 0%Z (stats !! "total_jobs")))]) Hn)
      as (m & jc & t' & -> & _ & _ & _ & _ & _ & Hcalls).
    eexists _, t'. split; [done|].
    rewrite app_nil_r, !completion_calls_app in Hcalls.
    cbn in Hcalls. lia.
Qed.

End ProcessProperties.

(** ** Unparseable scores *)

Lemma find_score_no_match (patterns : list regex) (section : string) :
  Forall (λ pattern, search pattern section = None) patterns →
  find_score patterns section = None.
Proof.
  induction 1 as [|pattern patterns Hnone _ IH]; [done|].
  cbn [find_score]. by rewrite Hnone.
Qed.

(** C5 (amended). A section in which no score pattern matches has no
    score ([None], no exception).  When the response has a job header and
    its first section has no score, the parser gives the candidate the
    score 0, and the candidate is accepted exactly when the threshold is
    not positive.  When the response has no job header, the parser returns
    no entry and the candidate is not accepted, whatever the threshold. *)
Theorem unparseable_score_is_zero (n_results : Z) (min_match_score : Q)
    (text : string) (job : Job) (matched_jobs : list scored) :
  (∀ section,
     Forall (λ pattern, search pattern section = None) score_patterns →
     find_score score_patterns section = None)
  ∧ (∀ intro section rest,
       split job_header text = intro :: section :: rest →
       find_score score_patterns section = None →
       _parse_job_scores_from_response text [job] 1 = [(0%Q, job, section)]
       ∧ ((0 < min_match_score)%Q →
          score_candidate (VInt n_results) (VFloat min_match_score)
            (Some text) job matched_jobs = Ret (matched_jobs, Continue))
       ∧ ((min_match_score <= 0)%Q →
          ∃ next,
            score_candidate (VInt n_results) (VFloat min_match_score)
              (Some text) job matched_jobs
            = Ret (matched_jobs ++ [(0%Q, job, section)], next)))
  ∧ (search job_header text = None →
     _parse_job_scores_from_response text [job] 1 = []
     ∧ score_candidate (VInt n_results) (VFloat min_match_score)
         (Some text) job matched_jobs = Ret (matched_jobs, Continue)).
Proof.
  split_and!.
  - intros section. apply find_score_no_match.
  - intros intro section rest Hsplit Hnone.
    assert (_parse_job_scores_from_response text [job] 1
            = [(0%Q, job, section)]) as Hparse
      by (rewrite parse_single, Hsplit; cbn [tail]; by rewrite Hnone).
    split_and!; [done|..].
    + intros Hpos. unfold score_candidate. rewrite Hparse.
      cbn [py_score_ge].
      destruct (Qle_bool min_match_score 0) eqn:Hle; [|done].
      apply Qle_bool_iff in Hle. by destruct (Qlt_not_le _ _ Hpos).
    + intros Hle. unfold score_candidate. rewrite Hparse.
      cbn [py_score_ge]. rewrite (proj2 (Qle_bool_iff _ _) Hle).
      cbn [py_len_ge]. destruct (_ <=? _)%Z; eauto.
  - apply score_candidate_no_header.
Qed.

Lemma unparseable_score_is_zero_witness :
  let text := "### Job #1: Analyst" +:+ nl +:+ "No score can be given." in
  let section := " Analyst" +:+ nl +:+ "No score can be given." in
  let job := Demo.job 1 "A" 0.8 in
  split job_header text = [""; section]
  ∧ find_score score_patterns section = None
  ∧ (0 < 0.6)%Q
  ∧ score_candidate (VInt 1) (VFloat 0.6) (Some text) job []
    = Ret ([], Continue)
  ∧ search job_header "I cannot assess this job." = None
  ∧ score_candidate (VInt 1) (VFloat 0) (Some "I cannot assess this job.")
      job [] = Ret ([], Continue).
Proof.
  intros text section job.
  assert (split job_header text = [""; section]) as Hsplit by reflexivity.
  assert (find_score score_patterns section = None) as Hnone by reflexivity.
  assert (0 < 0.6)%Q as Hpos by reflexivity.
  assert (search job_header "I cannot assess this job." = None) as Hsearch
    by reflexivity.
  split; [exact Hsplit|]. split; [exact Hnone|]. split; [exact Hpos|].
  split; [|split; [exact Hsearch|]].
  - exact (proj1 (proj2 (proj1 (proj2
             (unparseable_score_is_zero 1 0.6 text job []))
             "" section [] Hsplit Hnone)) Hpos).
  - exact (proj2 (proj2 (proj2
             (unparseable_score_is_zero 1 0 "I cannot assess this job."
                job [])) Hsearch)).
Defined.

(** Against C5 as stated, on a response without job header: no
    pattern matches, the threshold is 0, and still the candidate is not
    accepted, for the parser never gave it the score 0. *)
Lemma unparseable_score_counterexample :
  let job := Demo.job 1 "A" 0.8 in
  find_score score_patterns "I cannot assess this job." = None
  ∧ py_score_ge 0 (VFloat 0) = Ret true
  ∧ _parse_job_scores_from_response "I cannot assess this job." [job] 1 = []
  ∧ ∃ t', Demo.loop Demo.no_header_table 1 0 [job] [] = (Ret ([], 1), t').
Proof.
  intros job. split_and!; try reflexivity. eexists. vm_compute. reflexivity.
Qed.

(** ** Renumbering *)

(** C8 does not hold of the code. The sections kept in [matched_jobs] are what
    [re.split] leaves after the job header, so the renumbering finds no
    label to replace: with two accepted matches the response carries
    neither [### Job #1:] nor [### Job #2:]. *)
Theorem renumbering_finds_no_label :
  ∃ response t',
    Demo.agent Demo.low_then_high Demo.low_then_high_table "find jobs"
               (Demo.context 2 0.6) []
    = (Ret response, t')
    ∧ String.prefix "## 🎯 2 Job Matches Found" response = true
    ∧ contains "### Job #1:" response = false
    ∧ contains "### Job #2:" response = false
    ∧ contains "### Job" response = false.
Proof. do 2 eexists. split_and!; vm_compute; reflexivity. Qed.

(** ** Instances on the concrete collaborators *)

Lemma scoring_loop_early_stop_witness :
  let low := Demo.job 1 "A" 0.8 in
  let high := Demo.job 2 "B" 0.7 in
  (0 ≤ 1)%Z
  ∧ (∃ matched_jobs jobs_checked t',
       Demo.loop Demo.low_then_high_table 1 0.6 [low] []
       = (Ret (matched_jobs, jobs_checked), t')
       ∧ Z.of_nat (length matched_jobs) = 1%Z
       ∧ Demo.loop Demo.low_then_high_table 1 0.6 ([low] ++ [high]) []
         = (Ret (matched_jobs, jobs_checked), t')
       ∧ completion_calls t' = 1)
  ∧ (∃ response t',
       Demo.agent Demo.low_then_high Demo.low_then_high_table "find jobs"
                  (Demo.context 1 0.6) []
       = (Ret response, t')
       ∧ completion_calls t' ≤ 2).
Proof.
  intros low high.
  assert (0 ≤ 1)%Z as Hn by lia.
  destruct (scoring_loop_early_stop
              (Demo.stats 2) (fun _ _ => Ret Demo.low_then_high)
              (Demo.answers Demo.low_then_high_table) Demo.exc_text
              "system prompt" Demo.build (fun s => s)
              (fun x => pretty (Qfloor (x * 100))) 1 Hn)
    as [Hloop Hprocess].
  split; [exact Hn|]. split.
  - destruct (Hloop "find jobs" "Skills: Python, SQL" (VFloat 0.6)
                [low] [high] [])
      as (matched_jobs & jobs_checked & t' & Hpre & _ & _ & Hstop & Hcalls & Hk
          & _).
    exists matched_jobs, jobs_checked, t'.
    assert (matched_jobs = [(0.70%Q, low, " Analyst" +:+ nl
              +:+ "**Overall Match Score:** 70%" +:+ nl)]
            ∧ jobs_checked = 1) as [Hm Hjc].
    { change (Demo.loop Demo.low_then_high_table 1 0.6 [low] []
              = (Ret (matched_jobs, jobs_checked), t')) in Hpre.
      vm_compute in Hpre. by injection Hpre as <- <- _. }
    assert (Z.of_nat (length matched_jobs) = 1%Z) as Hfull
      by (by rewrite Hm).
    split; [exact Hpre|]. split; [exact Hfull|].
    split; [exact (Hstop Hfull)|]. rewrite Hcalls, Hjc.
    reflexivity.
  - assert ((Demo.stats 2 : outcome (gmap string Z))
            = Ret {[ "total_jobs" := 2%Z; "total_resumes" := 0%Z ]}) as Hstats
      by reflexivity.
    set (ctx := {[ "resume_text" := VStr "Skills: Python, SQL";
                   "n_results" := VInt 1;
                   "min_match_score" := VFloat 0.6 ]} : gmap string PyVal).
    assert (ctx !! "resume_text" = Some (VStr "Skills: Python, SQL"))
      as Hresume by reflexivity.
    assert (default (VInt 5) (ctx !! "n_results") = VInt 1) as Hcount
      by reflexivity.
    assert (default 0%Z (({[ "total_jobs" := 2%Z; "total_resumes" := 0%Z ]}
                           : gmap string Z) !! "total_jobs") ≠ 0%Z)
      as Htotal by (by vm_compute).
    assert (Demo.low_then_high ≠ []) as Hpool by done.
    assert (format_threshold (fun x => pretty (Qfloor (x * 100)))
              (default (VFloat MIN_JOB_MATCH_SCORE)
                 (ctx !! "min_match_score")) = Ret "60") as Hthreshold
      by reflexivity.
    destruct (Hprocess "find jobs" "Skills: Python, SQL" ctx
                {[ "total_jobs" := 2%Z; "total_resumes" := 0%Z ]}
                Demo.low_then_high "60" []
                Hresume Hcount Hstats Htotal eq_refl Hpool Hthreshold)
      as (response & t' & Hrun & Hcalls).
    exists response, t'. split; [exact Hrun|exact Hcalls].
Defined.

Lemma empty_corpus_witness :
  validate_context (Demo.context 5 0.6) ["resume_text"] = true
  ∧ default 0%Z (({[ "total_jobs" := 0%Z; "total_resumes" := 0%Z ]}
                   : gmap string Z) !! "total_jobs") = 0%Z
  ∧ Demo.agent [] [] "find jobs" (Demo.context 5 0.6) []
    = (Ret no_jobs_in_database, [EvStats]).
Proof.
  assert (validate_context (Demo.context 5 0.6) ["resume_text"] = true)
    as Hval by reflexivity.
  assert (default 0%Z (({[ "total_jobs" := 0%Z; "total_resumes" := 0%Z ]}
                         : gmap string Z) !! "total_jobs") = 0%Z)
    as Hzero by reflexivity.
  split; [exact Hval|]. split; [exact Hzero|].
  exact (proj1 (empty_corpus (Demo.stats 0) (fun _ _ => Ret [])
                  (Demo.answers []) Demo.exc_text "system prompt" Demo.build
                  (fun s => s) (fun x => pretty (Qfloor (x * 100)))
                  "find jobs" (Demo.context 5 0.6) _ [] Hval eq_refl Hzero)).
Defined.

Lemma process_without_resume_witness :
  Demo.agent Demo.low_then_high Demo.low_then_high_table "find jobs" None []
  = (Ret (format_error_response resume_missing), [])
  ∧ Demo.agent Demo.low_then_high Demo.low_then_high_table "find jobs"
      (Some {[ "n_results" := VInt 3 ]}) []
    = (Ret (format_error_response resume_missing), []).
Proof.
  split.
  - exact (proj2 (proj2 (process_without_resume (Demo.stats 2)
                    (fun _ _ => Ret Demo.low_then_high)
                    (Demo.answers Demo.low_then_high_table) Demo.exc_text
                    "system prompt" Demo.build (fun s => s)
                    (fun x => pretty (Qfloor (x * 100)))
                    "find jobs" None []))
                 (or_introl eq_refl)).
  - exact (proj2 (proj2 (process_without_resume (Demo.stats 2)
                    (fun _ _ => Ret Demo.low_then_high)
                    (Demo.answers Demo.low_then_high_table) Demo.exc_text
                    "system prompt" Demo.build (fun s => s)
                    (fun x => pretty (Qfloor (x * 100)))
                    "find jobs" (Some {[ "n_results" := VInt 3 ]}) []))
                 (or_intror (or_intror
                    (ex_intro _ {[ "n_results" := VInt 3 ]}
                       (conj eq_refl eq_refl))))).
Defined.

(** ** Round trip of the score formats *)

(** *** Texts *)

Lemma app_cons (x : ascii) (a b : string) :
  String x a +:+ b = String x (a +:+ b).
Proof. reflexivity. Qed.

Lemma app_empty (b : string) : "" +:+ b = b.
Proof. reflexivity. Qed.

Lemma app_empty_r (a : string) : a +:+ "" = a.
Proof. induction a as [|x a IH]; [done|]. by rewrite app_cons, IH. Qed.

Lemma app_assoc_string (a b c : string) : (a +:+ b) +:+ c = a +:+ b +:+ c.
Proof. induction a as [|x a IH]; [done|]. by rewrite !app_cons, IH. Qed.

Lemma length_app_string (a b : string) :
  String.length (a +:+ b) = String.length a + String.length b.
Proof.
  induction a as [|x a IH]; [done|]. rewrite app_cons. cbn [String.length].
  by rewrite IH.
Qed.

Lemma substring_prefix (a b : string) :
  substring 0 (String.length a) (a +:+ b) = a.
Proof.
  induction a as [|x a IH]; [by destruct b|]. rewrite app_cons.
  cbn [String.length substring]. by rewrite IH.
Qed.

Lemma consumed_app (a b : string) : consumed (a +:+ b) b = a.
Proof.
  unfold consumed. rewrite length_app_string.
  replace (String.length a + String.length b - String.length b)
    with (String.length a) by lia.
  apply substring_prefix.
Qed.

Lemma consumed_cons_app (c : ascii) (a b : string) :
  consumed (String c (a +:+ b)) b = String c a.
Proof. apply (consumed_app (String c a) b). Qed.

Lemma all_chars_app (p : ascii → bool) (a b : string) :
  all_chars p (a +:+ b) = all_chars p a && all_chars p b.
Proof.
  induction a as [|x a IH]; [done|]. rewrite app_cons. cbn [all_chars].
  rewrite IH. by rewrite andb_assoc.
Qed.

(** *** Decimal numerals *)

Lemma is_digit_cases (d : ascii) :
  is_digit d = true →
  d ∈ ["0"; "1"; "2"; "3"; "4"; "5"; "6"; "7"; "8"; "9"]%char.
Proof.
  destruct d as [[] [] [] [] [] [] [] []]; intros H; try discriminate H;
    set_solver.
Qed.

Lemma is_space_cases (c : ascii) :
  is_space c = true →
  c ∈ ["009"; "010"; "011"; "012"; "013"; "028"; "029"; "030"; "031"; " "]%char.
Proof.
  destruct c as [[] [] [] [] [] [] [] []]; intros H; try discriminate H;
    set_solver.
Qed.

Ltac char_cases lemma H :=
  apply lemma in H;
  repeat (apply elem_of_cons in H as [->|H]);
  [..|by apply elem_of_nil in H].

Lemma pretty_N_char_digit (x : N) :
  (x < 10)%N →
  is_digit (pretty_N_char x) = true ∧ (code (pretty_N_char x) - 48 = x)%N.
Proof.
  intros Hx. destruct x as [|p]; [done|].
  do 4 (destruct p as [p|p|]; try done; try lia).
Qed.

Lemma digits_val_app (a b : string) (acc : N) :
  digits_val (a +:+ b) acc = digits_val b (digits_val a acc).
Proof.
  revert acc. induction a as [|x a IH]; intros acc; [done|].
  rewrite app_cons. apply IH.
Qed.

(** [pretty_N_go x s] writes the digits of [x] in front of [s]. *)
Lemma pretty_N_go_digits (x : N) : ∀ s,
  ∃ ds, pretty_N_go x s = ds +:+ s
        ∧ all_digits ds = true
        ∧ ((0 < x)%N → ds ≠ "")
        ∧ ∀ acc, digits_val ds acc
                 = (acc * 10 ^ N.of_nat (String.length ds) + x)%N.
Proof.
  induction (N.lt_wf_0 x) as [x _ IH]. intros s.
  destruct (N.eq_0_gt_0_cases x) as [->|Hpos].
  { exists "". split_and!; try done. intros acc. cbn. lia. }
  rewrite pretty_N_go_step by done.
  destruct (IH (x `div` 10)%N) with (s := String (pretty_N_char (x `mod` 10)) s)
    as (ds & -> & Hall & _ & Hval).
  { by apply N.div_lt. }
  destruct (pretty_N_char_digit (x `mod` 10)) as [Hdigit Hcode].
  { by apply N.mod_lt. }
  exists (ds +:+ String (pretty_N_char (x `mod` 10)) "").
  split_and!.
  - by rewrite app_assoc_string.
  - unfold all_digits in *. rewrite all_chars_app, Hall. cbn.
    by rewrite Hdigit.
  - intros _. by destruct ds.
  - intros acc. rewrite digits_val_app, Hval. cbn [digits_val].
    rewrite Hcode, length_app_string. cbn [String.length].
    rewrite Nat2N.inj_add, N.pow_add_r. change (10 ^ N.of_nat 1)%N with 10%N.
    pose proof (N.div_mod x 10). lia.
Qed.

(** A numeral is a digit followed by digits, and reads back as its number. *)
Lemma pretty_N_digits (x : N) :
  ∃ d ds, pretty x = String d ds
          ∧ is_digit d = true
          ∧ all_digits (String d ds) = true
          ∧ digits_val (String d ds) 0 = x.
Proof.
  unfold pretty, pretty_N. destruct (decide (x = 0%N)) as [->|Hx].
  { by exists "0"%char, "". }
  destruct (pretty_N_go_digits x "") as (ds & -> & Hall & Hne & Hval).
  rewrite app_empty_r.
  destruct ds as [|d ds]; [destruct Hne; [lia|done]|].
  exists d, ds. pose proof Hall as Hall'. unfold all_digits in Hall'.
  cbn in Hall'. apply andb_true_iff in Hall' as [Hd Hds].
  split_and!; done.
Qed.

Lemma span_digits_all (s : string) :
  all_digits s = true → span_digits s = (s, "").
Proof.
  unfold all_digits.
  induction s as [|c s IH]; [done|]. cbn [all_chars span_digits].
  intros [Hc Hs]%andb_true_iff. by rewrite Hc, IH.
Qed.

Lemma float_numeral (x : N) : float (pretty x) = Some (Z.of_N x # 1).
Proof.
  destruct (pretty_N_digits x) as (d & ds & -> & Hd & Hds & Hval).
  unfold float. rewrite span_digits_all by done.
  cbn [is_empty]. by rewrite Hval.
Qed.

(** *** Runs of characters under the matcher *)

Lemma star_stop {R} (p : ascii → bool) (s : string) (k : string → option R) :
  starts_without p s → star p s k = k s.
Proof. destruct s as [|c s]; [done|]. cbn. by intros ->. Qed.

(** A greedy repetition reads a whole run when what follows the run lets
    the rest of the pattern succeed. *)
Lemma star_run {R} (p : ascii → bool) (run rest : string)
    (k : string → option R) (x : R) :
  all_chars p run = true →
  starts_without p rest →
  k rest = Some x →
  star p (run +:+ rest) k = Some x.
Proof.
  intros Hall Hrest Hk. induction run as [|c run IH].
  - rewrite app_empty, star_stop; done.
  - cbn [all_chars] in Hall. apply andb_true_iff in Hall as [Hc Hrun].
    rewrite app_cons. cbn [star]. by rewrite Hc, IH.
Qed.

Lemma search_cons_fail (r : regex) (c : ascii) (s : string) :
  match_at r (String c s) = None →
  search r (String c s) =
    match search r s with
    | Some m => Some (RMatch (String c (m_pre m)) (m_post m) (m_group1 m))
    | None => None
    end.
Proof. intros Hnone. cbn [search]. by rewrite Hnone. Qed.

(** [search] walks over a run of characters at which the pattern cannot
    start. *)
Lemma search_skip_run (p : ascii → bool) (r : regex) (run rest : string) :
  (∀ c s, p c = true → match_at r (String c s) = None) →
  all_chars p run = true →
  search r (run +:+ rest) =
    match search r rest with
    | Some m => Some (RMatch (run +:+ m_pre m) (m_post m) (m_group1 m))
    | None => None
    end.
Proof.
  intros Hr Hall. induction run as [|c run IH].
  - rewrite app_empty. by destruct (search r rest) as [[]|].
  - cbn [all_chars] in Hall. apply andb_true_iff in Hall as [Hc Hrun].
    rewrite app_cons, search_cons_fail, IH by auto.
    by destruct (search r rest).
Qed.

Lemma search_none_cons (r : regex) (c : ascii) (s : string) :
  match_at r (String c s) = None → search r s = None →
  search r (String c s) = None.
Proof. intros H1 H2. by rewrite search_cons_fail, H2. Qed.

Lemma search_none_run (p : ascii → bool) (r : regex) (run rest : string) :
  (∀ c s, p c = true → match_at r (String c s) = None) →
  all_chars p run = true → search r rest = None →
  search r (run +:+ rest) = None.
Proof. intros Hr Hall Hrest. by rewrite (search_skip_run p), Hrest. Qed.

Lemma search_at_start (r : regex) (s : string) (m : rmatch) :
  match_at r s = Some m → search r s = Some m.
Proof. intros H. destruct s; cbn [search]; by rewrite H. Qed.

(** *** Where the patterns cannot start *)

Lemma not_at_digit (r : regex) (d : ascii) (s : string) :
  r ∈ [standard_format; markdown_bold; simple_format; job_header] →
  is_digit d = true → match_at r (String d s) = None.
Proof.
  intros Hr H. repeat (apply elem_of_cons in Hr as [->|Hr]);
    [..|by apply elem_of_nil in Hr];
    char_cases is_digit_cases H; reflexivity.
Qed.

Lemma not_at_space (r : regex) (c : ascii) (s : string) :
  r ∈ score_patterns ∨ r = job_header →
  is_space c = true → match_at r (String c s) = None.
Proof.
  intros [Hr| ->] H.
  - unfold score_patterns in Hr.
    repeat (apply elem_of_cons in Hr as [->|Hr]);
      [..|by apply elem_of_nil in Hr];
      char_cases is_space_cases H; reflexivity.
  - char_cases is_space_cases H; reflexivity.
Qed.

(** *** The formats under the score patterns *)

Ltac read_digits ds rest :=
  erewrite (star_run is_digit ds rest);
    [|assumption|reflexivity|cbn; reflexivity].

Ltac match_number d ds rest Hd :=
  unfold match_at; char_cases is_digit_cases Hd; cbn; read_digits ds rest;
    cbn; by rewrite consumed_cons_app.

(** The standard pattern finds the number in every format that names the
    score. *)
Lemma standard_format_finds (f : score_format) (x : N) :
  f ≠ PercentMatch →
  ∃ before,
    search standard_format (format_score f x)
    = Some (RMatch before "" (Some (pretty x))).
Proof.
  intros Hf.
  destruct (pretty_N_digits x) as (d & ds & Hp & Hd & Hall & _).
  assert (all_chars is_digit ds = true) as Hds.
  { unfold all_digits in Hall. cbn [all_chars] in Hall.
    by apply andb_true_iff in Hall as [_ ?]. }
  unfold format_score. rewrite Hp.
  destruct f; [..|done]; rewrite !app_cons, app_empty.
  - exists "". apply search_at_start. match_number d ds "%" Hd.
  - exists "**". do 2 (rewrite search_cons_fail by reflexivity).
    match goal with
    | |- context [search ?r ?s] =>
        assert (match_at r s = Some (RMatch "" "" (Some (String d ds)))) as Hm
          by match_number d ds "%" Hd
    end.
    by rewrite (search_at_start _ _ _ Hm).
  - exists "**". do 2 (rewrite search_cons_fail by reflexivity).
    match goal with
    | |- context [search ?r ?s] =>
        assert (match_at r s = Some (RMatch "" "" (Some (String d ds)))) as Hm
          by match_number d ds "%" Hd
    end.
    by rewrite (search_at_start _ _ _ Hm).
  - exists "". apply search_at_start. match_number d ds "%" Hd.
Qed.

(** The format [N% match] is found by the last pattern only. *)
Lemma percent_match_finds (x : N) :
  search standard_format (format_score PercentMatch x) = None
  ∧ search markdown_bold (format_score PercentMatch x) = None
  ∧ search simple_format (format_score PercentMatch x) = None
  ∧ search x_percent_match (format_score PercentMatch x)
    = Some (RMatch "" "" (Some (pretty x))).
Proof.
  destruct (pretty_N_digits x) as (d & ds & Hp & Hd & Hall & _).
  assert (all_chars is_digit ds = true) as Hds.
  { unfold all_digits in Hall. cbn [all_chars] in Hall.
    by apply andb_true_iff in Hall as [_ ?]. }
  unfold format_score. rewrite Hp. split_and!.
  - apply (search_none_run is_digit); [|done|reflexivity].
    intros c s. apply not_at_digit. set_solver.
  - apply (search_none_run is_digit); [|done|reflexivity].
    intros c s. apply not_at_digit. set_solver.
  - apply (search_none_run is_digit); [|done|reflexivity].
    intros c s. apply not_at_digit. set_solver.
  - rewrite app_cons. apply search_at_start. match_number d ds "% match" Hd.
Qed.

Lemma search_after_space (r : regex) (space text : string) :
  r ∈ score_patterns ∨ r = job_header →
  all_chars is_space space = true →
  search r (space +:+ text) =
    match search r text with
    | Some m => Some (RMatch (space +:+ m_pre m) (m_post m) (m_group1 m))
    | None => None
    end.
Proof.
  intros Hr Hspace. apply (search_skip_run is_space); [|done].
  intros c s. by apply not_at_space.
Qed.

Lemma find_score_format (space : string) (f : score_format) (x : N) :
  all_chars is_space space = true →
  find_score score_patterns (space +:+ format_score f x)
  = Some (percent_score x).
Proof.
  intros Hspace. unfold percent_score.
  assert (∀ r, r ∈ score_patterns →
            search r (space +:+ format_score f x) =
              match search r (format_score f x) with
              | Some m =>
                  Some (RMatch (space +:+ m_pre m) (m_post m) (m_group1 m))
              | None => None
              end) as Hskip
    by (intros r Hr; apply search_after_space; auto).
  assert (f = PercentMatch ∨ f ≠ PercentMatch) as [->|Hf]
    by (destruct f; auto).
  - destruct (percent_match_finds x) as (H1 & H2 & H3 & H4).
    unfold score_patterns in *. cbn [find_score].
    rewrite !Hskip, H1, H2, H3, H4 by set_solver.
    cbn [m_group1 mbind option_bind]. by rewrite float_numeral.
  - destruct (standard_format_finds f x Hf) as [before Hfound].
    unfold score_patterns in *. cbn [find_score].
    rewrite Hskip, Hfound by set_solver.
    cbn [m_group1 mbind option_bind]. by rewrite float_numeral.
Qed.

(** *** The formats under the job header *)

Ltac no_header_here :=
  lazymatch goal with
  | H : all_digits (String ?d ?ds) = true
    |- search job_header (String ?d (?ds +:+ ?rest)) = None =>
      apply (search_none_run is_digit job_header (String d ds) rest);
        [intros ? ?; apply not_at_digit; set_solver|exact H|]
  | |- search job_header (String _ _) = None =>
      apply search_none_cons; [reflexivity|]
  end.

Lemma job_header_absent (space : string) (f : score_format) (x : N) :
  all_chars is_space space = true →
  search job_header (space +:+ format_score f x) = None.
Proof.
  intros Hspace. rewrite search_after_space by auto.
  destruct (pretty_N_digits x) as (d & ds & Hp & Hd & Hall & _).
  unfold format_score. rewrite Hp.
  assert (∀ text, search job_header text = None →
            match search job_header text with
            | Some m =>
                Some (RMatch (space +:+ m_pre m) (m_post m) (m_group1 m))
            | None => None
            end = None) as Hnone by (by intros text ->).
  apply Hnone.
  destruct f; rewrite ?app_cons, ?app_empty; repeat no_header_here;
    reflexivity.
Qed.

Lemma split_after_header (rest : string) :
  search job_header rest = None →
  split job_header ("### Job #1:" +:+ rest) = [""; rest].
Proof.
  intros Hrest. unfold split. rewrite !app_cons, app_empty.
  cbn [String.length split_fuel].
  rewrite (search_at_start _ _ (RMatch "" rest None)) by reflexivity.
  cbn [m_pre m_post]. by rewrite Hrest.
Qed.

(** C7 (amended). Each format, filled with an integer percentage, gives
    the score patterns exactly that percentage divided by 100.  The parser
    returns that score for the candidate when the response is a job header,
    white space or none, and the formatted score; on the formatted score
    alone, without job header, it returns no entry. *)
Theorem score_round_trip (f : score_format) (percentage : N)
    (space : string) (job : Job) :
  all_chars is_space space = true →
  find_score score_patterns (format_score f percentage)
  = Some (percent_score percentage)
  ∧ _parse_job_scores_from_response
      ("### Job #1:" +:+ space +:+ format_score f percentage) [job] 1
    = [(percent_score percentage, job, space +:+ format_score f percentage)]
  ∧ _parse_job_scores_from_response (format_score f percentage) [job] 1 = [].
Proof.
  intros Hspace. split_and!.
  - by apply (find_score_format "").
  - rewrite parse_single, split_after_header by (by apply job_header_absent).
    cbn [tail]. by rewrite find_score_format.
  - rewrite parse_single, split_no_match; [done|].
    by apply (job_header_absent "").
Qed.

Lemma score_round_trip_witness :
  all_chars is_space " " = true
  ∧ _parse_job_scores_from_response
      "### Job #1: **Overall Match Score:** 85%" [Demo.job 1 "A" 0.8] 1
    = [(0.85%Q, Demo.job 1 "A" 0.8, " **Overall Match Score:** 85%")].
Proof.
  assert (all_chars is_space " " = true) as Hspace by reflexivity.
  split; [exact Hspace|].
  exact (proj1 (proj2 (score_round_trip OverallBold 85 " "
                         (Demo.job 1 "A" 0.8) Hspace))).
Defined.

(** Against C7 as stated: the formatted score alone, without job
    header, gives the parser nothing for the candidate. *)
Lemma score_round_trip_counterexample :
  format_score OverallPlain 85 = "Overall Match Score: 85%"
  ∧ percent_score 85 = 0.85%Q
  ∧ _parse_job_scores_from_response (format_score OverallPlain 85)
      [Demo.job 1 "A" 0.8] 1 = [].
Proof. split_and!; reflexivity. Qed.

(** * Further properties *)

(** ** The size of the candidate pool *)

(** X1. For a corpus of at least one job, [max_candidates] is at least 1,
    at most the size of the corpus and at most 75; it is the whole corpus
    up to 50 jobs, 50 up to 5000 jobs and 75 beyond; and it never
    decreases when the corpus grows. *)
Theorem max_candidates_bounds (total_jobs : Z) :
  (1 ≤ total_jobs)%Z →
  (1 ≤ max_candidates total_jobs ≤ total_jobs)%Z
  ∧ (max_candidates total_jobs ≤ 75)%Z
  ∧ ((total_jobs ≤ 50)%Z → max_candidates total_jobs = total_jobs)
  ∧ ((50 ≤ total_jobs ≤ 5000)%Z → max_candidates total_jobs = 50%Z)
  ∧ ((5000 < total_jobs)%Z → max_candidates total_jobs = 75%Z)
  ∧ (∀ larger, (total_jobs ≤ larger)%Z →
       (max_candidates total_jobs ≤ max_candidates larger)%Z).
Proof.
  intros Hpos.
  assert (∀ x, max_candidates x
               = if decide (x ≤ 500)%Z then Z.min 50 x
                 else if decide (x ≤ 5000)%Z then Z.min 50 x
                      else Z.min 75 x) as Hmax.
  { intros x. unfold max_candidates.
    destruct (Z.leb_spec x 500), (Z.leb_spec x 5000);
      repeat case_decide; lia. }
  split_and!; [..|intros larger Hle; rewrite (Hmax larger)];
    rewrite (Hmax total_jobs); repeat case_decide; lia.
Qed.

Lemma max_candidates_bounds_witness :
  (1 ≤ 120)%Z ∧ (50 ≤ 120 ≤ 5000)%Z ∧ max_candidates 120 = 50%Z.
Proof.
  assert (1 ≤ 120)%Z as H1 by lia.
  assert (50 ≤ 120 ≤ 5000)%Z as H2 by lia.
  split; [exact H1|]. split; [exact H2|].
  exact (proj1 (proj2 (proj2 (proj2 (max_candidates_bounds 120 H1)))) H2).
Defined.


(** ** Retrieval *)

Lemma jobs_from_lookup (docs : list string) : ∀ i metas dists doc_ids k job,
  Retriever.jobs_from i docs metas dists doc_ids !! k = Some job →
  rank job = i + k + 1
  ∧ docs !! k = Some (content job)
  ∧ metas !! k = Some (metadata job)
  ∧ dists !! k = Some (distance job)
  ∧ doc_ids !! k = Some (id job)
  ∧ similarity_score job = (1 - distance job)%Q.
Proof.
  induction docs as [|doc docs IH]; intros i metas dists doc_ids k job; [done|].
  destruct metas as [|metadata metas], dists as [|distance dists],
    doc_ids as [|doc_id doc_ids]; try done.
  cbn [Retriever.jobs_from]. destruct k as [|k].
  - intros [= <-]. cbn. split_and!; try done. lia.
  - cbn [lookup list_lookup]. intros Hk.
    destruct (IH _ _ _ _ _ _ Hk) as (Hrank & ?). split_and!; try tauto. lia.
Qed.

Lemma jobs_from_length (docs : list string) : ∀ i metas dists doc_ids,
  length (Retriever.jobs_from i docs metas dists doc_ids)
  = Nat.min (Nat.min (Nat.min (length docs) (length metas)) (length dists))
            (length doc_ids).
Proof.
  induction docs as [|doc docs IH]; intros i metas dists doc_ids; [done|].
  destruct metas as [|metadata metas], dists as [|distance dists],
    doc_ids as [|doc_id doc_ids]; cbn [Retriever.jobs_from length]; try lia.
  rewrite IH. lia.
Qed.

(** X2. [retrieve_jobs] asks the store for [n_results] results, or for 3
    when [n_results] is missing or 0, and passes a failure of the store
    on.  Of what the store returns it makes as many jobs as the shortest
    of the four lists has entries; the job at position [k] has rank
    [k + 1], the document, metadata, distance and id at position [k], and
    similarity [1 - distance]. *)
Theorem retrieve_jobs_positions
    (search_jobs : string → Z → outcome Retriever.SearchResults)
    (query : string) (n_results : option Z) :
  (∀ e, search_jobs query (Retriever.requested n_results) = Raise e →
        Retriever.retrieve_jobs search_jobs query n_results = Raise e)
  ∧ (∀ results,
       search_jobs query (Retriever.requested n_results) = Ret results →
       ∃ jobs,
         Retriever.retrieve_jobs search_jobs query n_results = Ret jobs
         ∧ length jobs
           = Nat.min (Nat.min (Nat.min (length (Retriever.documents results))
                                       (length (Retriever.metadatas results)))
                              (length (Retriever.distances results)))
                     (length (Retriever.ids results))
         ∧ ∀ k job, jobs !! k = Some job →
             rank job = k + 1
             ∧ Retriever.documents results !! k = Some (content job)
             ∧ Retriever.metadatas results !! k = Some (metadata job)
             ∧ Retriever.distances results !! k = Some (distance job)
             ∧ Retriever.ids results !! k = Some (id job)
             ∧ similarity_score job = (1 - distance job)%Q)
  ∧ Retriever.requested None = 3%Z
  ∧ Retriever.requested (Some 0%Z) = 3%Z
  ∧ (∀ n, n ≠ 0%Z → Retriever.requested (Some n) = n).
Proof.
  unfold Retriever.retrieve_jobs. split_and!; try done.
  - by intros e ->.
  - intros results ->. eexists. split; [done|]. split.
    + apply jobs_from_length.
    + intros k job Hk. by apply jobs_from_lookup in Hk.
  - intros n Hn. unfold Retriever.requested.
    by rewrite (proj2 (Z.eqb_neq _ _) Hn).
Qed.


(** ** The pre-filter on a ranked list *)

Lemma jobs_from_ranked (docs : list string) : ∀ i metas dists doc_ids,
  StronglySorted Qle dists →
  ranked (Retriever.jobs_from i docs metas dists doc_ids).
Proof.
  unfold ranked.
  induction docs as [|doc docs IH]; intros i metas dists doc_ids Hsorted;
    [constructor|].
  destruct metas as [|metadata metas], dists as [|d0 dists],
    doc_ids as [|doc_id doc_ids]; try constructor.
  - apply IH. by apply StronglySorted_inv in Hsorted as [? _].
  - apply StronglySorted_inv in Hsorted as [_ Hall].
    apply Forall_forall. intros job Hjob.
    apply list_elem_of_lookup in Hjob as [k Hk].
    destruct (jobs_from_lookup _ _ _ _ _ _ _ Hk) as (_ & _ & _ & Hd & _ & ->).
    cbn [similarity_score].
    assert (d0 <= distance job)%Q as Hle.
    { eapply Forall_forall in Hall; [exact Hall|].
      apply list_elem_of_lookup. eauto. }
    unfold Qminus. apply Qplus_le_r. by apply Qopp_le_compat.
Qed.

Lemma pre_filter_none (jobs : list Job) :
  Forall (λ job, (similarity_score job < 0.35)%Q) jobs → pre_filter jobs = [].
Proof.
  unfold pre_filter. induction 1 as [|job jobs Hlow _ IH]; [done|].
  rewrite filter_cons_False; [done|]. by rewrite keeps_iff; intros [].
Qed.

Lemma pre_filter_ranked (jobs : list Job) :
  ranked jobs →
  ∃ k, pre_filter jobs = take k jobs
       ∧ Forall (λ job, (similarity_score job < 0.35)%Q) (drop k jobs).
Proof.
  unfold ranked. induction 1 as [|job jobs _ IH Hall].
  { by exists 0. }
  destruct (Qlt_le_dec (similarity_score job) 0.35) as [Hlow|Hkeep].
  - exists 0. cbn [take drop].
    assert (Forall (λ job, (similarity_score job < 0.35)%Q) (job :: jobs))
      as Hbelow.
    { constructor; [done|]. eapply Forall_impl; [exact Hall|].
      intros other Hle. exact (Qle_lt_trans _ _ _ Hle Hlow). }
    split; [by apply pre_filter_none|done].
  - destruct IH as (k & Hk & Hdrop). exists (S k). cbn [take drop].
    split; [|done]. unfold pre_filter in *.
    rewrite filter_cons_True, Hk; [done|].
    apply keeps_iff. by apply Qle_not_lt.
Qed.

(** X3. When the distances the store returns never decrease, the jobs
    [retrieve_jobs] builds never increase in similarity, and the
    pre-filter keeps a prefix of them: every job it drops comes after
    every job it keeps, and all dropped jobs are below 0.35. *)
Theorem pre_filter_keeps_a_prefix
    (search_jobs : string → Z → outcome Retriever.SearchResults)
    (query : string) (n_results : option Z)
    (results : Retriever.SearchResults) :
  search_jobs query (Retriever.requested n_results) = Ret results →
  Sorted Qle (Retriever.distances results) →
  ∃ jobs k,
    Retriever.retrieve_jobs search_jobs query n_results = Ret jobs
    ∧ ranked jobs
    ∧ pre_filter jobs = take k jobs
    ∧ Forall (λ job, (similarity_score job < 0.35)%Q) (drop k jobs).
Proof.
  intros Hsearch Hsorted. unfold Retriever.retrieve_jobs. rewrite Hsearch.
  assert (ranked (Retriever.jobs_from 0 (Retriever.documents results)
                    (Retriever.metadatas results)
                    (Retriever.distances results) (Retriever.ids results)))
    as Hranked.
  { apply jobs_from_ranked. apply Sorted_StronglySorted; [|done].
    intros x y z. apply Qle_trans. }
  destruct (pre_filter_ranked _ Hranked) as (k & Hk & Hdrop).
  by eexists _, k.
Qed.

Lemma pre_filter_keeps_a_prefix_witness :
  let results :=
    Retriever.mkResults ["first"; "second"; "third"] [∅; ∅; ∅]
                        [0.2; 0.5; 0.7]%Q ["a"; "b"; "c"] in
  let search_jobs := fun (_ : string) (_ : Z) => Ret results in
  Sorted Qle (Retriever.distances results)
  ∧ ∃ jobs k,
      Retriever.retrieve_jobs search_jobs "python" (Some 50%Z) = Ret jobs
      ∧ ranked jobs
      ∧ pre_filter jobs = take k jobs
      ∧ Forall (λ job, (similarity_score job < 0.35)%Q) (drop k jobs).
Proof.
  intros results search_jobs.
  assert (Sorted Qle (Retriever.distances results)) as Hsorted.
  { repeat constructor; by vm_compute. }
  split; [exact Hsorted|].
  exact (pre_filter_keeps_a_prefix search_jobs "python" (Some 50%Z) results
           eq_refl Hsorted).
Defined.


(** ** The calls of [process] *)

Section CallProperties.
Variable get_stats : outcome (gmap string Z).
Variable retrieve_jobs : string -> Z -> outcome (list Job).
Variable llm_generate : nat -> string -> string -> outcome (option string).
Variable exc_text : exc -> string.
Variable get_system_prompt : string.
Variable build_job_matching_context : string -> list Job -> string -> string.
Variable _extract_key_resume_info : string -> string.
Variable percent0 : Q -> string.

Local Abbreviation run :=
  (process get_stats retrieve_jobs llm_generate exc_text get_system_prompt
     build_job_matching_context _extract_key_resume_info percent0).
Local Abbreviation loop_of query resume n_results min_match_score :=
  (scoring_loop llm_generate exc_text get_system_prompt
     build_job_matching_context query resume n_results min_match_score).

(** Whatever the values of [n_results] and [min_match_score], the loop
    only adds completion calls to the trace, at most one per candidate. *)
Lemma loop_trace query resume n_results min_match_score pool :
  ∀ matched_jobs jobs_checked t,
    ∃ result gens,
      loop_of query resume n_results min_match_score pool matched_jobs
              jobs_checked t = (result, t ++ gens)
      ∧ Forall (λ e, is_generate e = true) gens
      ∧ length gens ≤ length pool.
Proof.
  induction pool as [|job pool IH]; intros matched_jobs jobs_checked t.
  { exists (Ret (matched_jobs, jobs_checked)), []. by rewrite app_nil_r. }
  cbn [scoring_loop]. unfold bind at 1. unfold lift.
  destruct (py_len_ge _ _) as [[]|e].
  - exists (Ret (matched_jobs, jobs_checked)), []. rewrite app_nil_r.
    split_and!; [done|done|cbn; lia].
  - unfold bind.
    destruct (generate_response_trace llm_generate exc_text get_system_prompt
                (build_job_matching_context resume [job] query
                 +:+ threshold_instruction) t) as [response ->].
    set (ev := EvGenerate _ _).
    assert (∀ m, ∃ result gens,
              loop_of query resume n_results min_match_score pool m
                      (S jobs_checked) (t ++ [ev]) = (result, t ++ gens)
              ∧ Forall (λ e, is_generate e = true) gens
              ∧ length gens ≤ length (job :: pool)) as Hnext.
    { intros m. destruct (IH m (S jobs_checked) (t ++ [ev]))
        as (result & gens & -> & Hgens & Hlen).
      exists result, (ev :: gens). rewrite <- app_assoc.
      split_and!; [done|by constructor|cbn [length]; lia]. }
    destruct (score_candidate _ _ _ _ _) as [[m []]|e]; [apply Hnext| |apply Hnext].
    exists (Ret (m, S jobs_checked)), [ev].
    split_and!; [done|by repeat constructor|cbn [length]; lia].
  - exists (Raise e), []. rewrite app_nil_r.
    split_and!; [done|done|cbn; lia].
Qed.

(** With a resume in the context, [process] runs the body of its [try]
    and turns an exception into an error response. *)
Lemma process_guarded (query : string) (ctx : gmap string PyVal)
    (resume_text : PyVal) (t : list event) :
  ctx !! "resume_text" = Some resume_text →
  run query (Some ctx) t =
    try_except
      (process_body get_stats retrieve_jobs llm_generate exc_text
         get_system_prompt build_job_matching_context
         _extract_key_resume_info percent0 query resume_text
         (default (VInt 5) (ctx !! "n_results"))
         (default (VFloat MIN_JOB_MATCH_SCORE) (ctx !! "min_match_score")))
      (λ e, ret (format_error_response (exc_text e))) t.
Proof.
  intros Hresume. unfold process.
  assert (validate_context (Some ctx) ["resume_text"] = true) as ->.
  { apply validate_resume_text. exists ctx. by rewrite Hresume. }
  cbn [negb default from_option Datatypes.id]. by rewrite Hresume.
Qed.

(** X4. [process] never raises, and its calls come in a fixed order.
    Without a valid context it makes no call at all. With one, it makes
    the statistics call alone, or the statistics call, then one retrieval
    for [max_candidates] results whose query is extracted from the
    resume of the context, then completion calls only: none when the
    retrieval fails, and at most one per pre-filtered candidate when it
    succeeds. *)
Theorem process_call_order (query : string)
    (context : option (gmap string PyVal)) (t : list event) :
  ∃ response events,
    run query context t = (Ret response, t ++ events)
    ∧ ((validate_context context ["resume_text"] = false ∧ events = [])
       ∨ (validate_context context ["resume_text"] = true
          ∧ events = [EvStats])
       ∨ ∃ ctx resume stats gens,
           context = Some ctx
           ∧ ctx !! "resume_text" = Some (VStr resume)
           ∧ get_stats = Ret stats
           ∧ default 0%Z (stats !! "total_jobs") ≠ 0%Z
           ∧ events
             = EvStats
               :: EvRetrieve (_extract_key_resume_info resume)
                    (max_candidates (default 0%Z (stats !! "total_jobs")))
               :: gens
           ∧ Forall (λ e, is_generate e = true) gens
           ∧ length gens
             ≤ match retrieve_jobs (_extract_key_resume_info resume)
                       (max_candidates
                          (default 0%Z (stats !! "total_jobs"))) with
               | Ret all_job_results => length (pre_filter all_job_results)
               | Raise _ => 0
               end).
Proof.
  destruct (validate_context context ["resume_text"]) eqn:Hvalid.
  2: { exists (format_error_response resume_missing), [].
       unfold process. rewrite Hvalid, app_nil_r. auto. }
  destruct (proj1 (validate_resume_text context) Hvalid)
    as (ctx & -> & resume_text & Hresume).
  rewrite (process_guarded _ _ _ _ Hresume).
  unfold try_except, process_body, bind, lift, ret.
  destruct get_stats as [stats|e] eqn:Hstats.
  2: { eexists _, [EvStats]. auto. }
  destruct (_ =? _)%Z eqn:Htotal.
  { eexists _, [EvStats]. auto. }
  apply Z.eqb_neq in Htotal.
  destruct resume_text as [|resume| |];
    try (eexists _, [EvStats]; split; [done|auto]).
  cbn [search_query_of text_of].
  pose proof (loop_trace query resume
                (default (VInt 5) (ctx !! "n_results"))
                (default (VFloat MIN_JOB_MATCH_SCORE)
                   (ctx !! "min_match_score"))) as Hloop.
  set (n := max_candidates _) in *.
  set (search_query := _extract_key_resume_info resume) in *.
  assert (∀ (response : string) gens,
            Forall (λ e, is_generate e = true) gens →
            length gens
            ≤ match retrieve_jobs search_query n with
              | Ret all_job_results => length (pre_filter all_job_results)
              | Raise _ => 0
              end →
            ∃ response' events,
              (Ret response,
               (t ++ [EvStats]) ++ EvRetrieve search_query n :: gens)
              = (Ret response', t ++ events)
              ∧ ((true = false ∧ events = [])
                 ∨ (true = true ∧ events = [EvStats])
                 ∨ ∃ ctx' resume' stats' gens',
                     Some ctx = Some ctx'
                     ∧ ctx' !! "resume_text" = Some (VStr resume')
                     ∧ Ret stats = Ret stats'
                     ∧ default 0%Z (stats' !! "total_jobs") ≠ 0%Z
                     ∧ events
                       = EvStats
                         :: EvRetrieve (_extract_key_resume_info resume')
                              (max_candidates
                                 (default 0%Z (stats' !! "total_jobs")))
                         :: gens'
                     ∧ Forall (λ e, is_generate e = true) gens'
                     ∧ length gens'
                       ≤ match retrieve_jobs
                                 (_extract_key_resume_info resume')
                                 (max_candidates
                                    (default 0%Z (stats' !! "total_jobs")))
                         with
                         | Ret all_job_results =>
                             length (pre_filter all_job_results)
                         | Raise _ => 0
                         end))
    as Hshape.
  { intros response gens Hgens Hlen. eexists response, _.
    rewrite <- app_assoc. split; [done|]. right; right.
    by exists ctx, resume, stats, gens. }
  destruct (retrieve_jobs search_query n) as [all_job_results|e]
    eqn:Hretrieve.
  2: { apply (Hshape _ []); [done|]. cbn. lia. }
  destruct all_job_results as [|job rest].
  { apply (Hshape _ []); [done|]. cbn. lia. }
  destruct (format_threshold _ _) as [threshold|e].
  2: { apply (Hshape _ []); [done|]. cbn. lia. }
  destruct (Hloop (pre_filter (job :: rest)) [] 0
              ((t ++ [EvStats]) ++ [EvRetrieve search_query n]))
    as (result & gens & -> & Hgens & Hlen).
  rewrite <- (app_assoc (t ++ [EvStats])). cbn [app].
  destruct result as [[m jc]|e]; [destruct m|]; by apply Hshape.
Qed.

(** X5. A failure of a collaborator is reported, not raised: when the
    statistics call fails, the response is the error text of that failure
    and nothing else is called; when the retrieval fails, the response is
    the error text of that failure and no completion is requested. *)
Theorem process_reports_failure (query : string) (ctx : gmap string PyVal)
    (resume_text : PyVal) (e : exc) (t : list event) :
  ctx !! "resume_text" = Some resume_text →
  (get_stats = Raise e →
   run query (Some ctx) t
   = (Ret (format_error_response (exc_text e)), t ++ [EvStats]))
  ∧ (∀ stats resume,
       get_stats = Ret stats →
       default 0%Z (stats !! "total_jobs") ≠ 0%Z →
       resume_text = VStr resume →
       retrieve_jobs (_extract_key_resume_info resume)
         (max_candidates (default 0%Z (stats !! "total_jobs"))) = Raise e →
       run query (Some ctx) t
       = (Ret (format_error_response (exc_text e)),
          t ++ [EvStats;
                EvRetrieve (_extract_key_resume_info resume)
                  (max_candidates (default 0%Z (stats !! "total_jobs")))])).
Proof.
  intros Hresume. rewrite (process_guarded _ _ _ _ Hresume).
  unfold try_except, process_body, bind, lift, ret. split.
  - by intros ->.
  - intros stats resume -> Htotal -> Hretrieve.
    apply Z.eqb_neq in Htotal. rewrite Htotal. cbn [search_query_of].
    by rewrite Hretrieve, <- app_assoc.
Qed.

(** X6. A context value of the wrong type ends in an error response
    before any completion is requested: a resume that is no string stops
    after the statistics call; a threshold that is a string or [None]
    stops after the retrieval; so does a result count that is a string or
    [None], when a candidate passed the pre-filter. *)
Theorem process_ill_typed_context (query : string) (ctx : gmap string PyVal)
    (resume_text : PyVal) (stats : gmap string Z) (t : list event) :
  let total_jobs := default 0%Z (stats !! "total_jobs") in
  let n_results := default (VInt 5) (ctx !! "n_results") in
  let min_match_score :=
    default (VFloat MIN_JOB_MATCH_SCORE) (ctx !! "min_match_score") in
  ctx !! "resume_text" = Some resume_text →
  get_stats = Ret stats →
  total_jobs ≠ 0%Z →
  ((∀ resume, resume_text ≠ VStr resume) →
   run query (Some ctx) t
   = (Ret (format_error_response (exc_text TypeError)), t ++ [EvStats]))
  ∧ (∀ resume all_job_results,
       resume_text = VStr resume →
       retrieve_jobs (_extract_key_resume_info resume)
         (max_candidates total_jobs) = Ret all_job_results →
       all_job_results ≠ [] →
       let called :=
         t ++ [EvStats;
               EvRetrieve (_extract_key_resume_info resume)
                 (max_candidates total_jobs)] in
       ((∃ text, min_match_score = VStr text) →
        run query (Some ctx) t
        = (Ret (format_error_response (exc_text ValueError)), called))
       ∧ (min_match_score = VNone →
          run query (Some ctx) t
          = (Ret (format_error_response (exc_text TypeError)), called))
       ∧ (∀ threshold,
            format_threshold percent0 min_match_score = Ret threshold →
            pre_filter all_job_results ≠ [] →
            (∃ text, n_results = VStr text) ∨ n_results = VNone →
            run query (Some ctx) t
            = (Ret (format_error_response (exc_text TypeError)), called))).
Proof.
  intros total_jobs n_results min_match_score Hresume Hstats Htotal.
  rewrite (process_guarded _ _ _ _ Hresume).
  unfold try_except, process_body, bind, lift, ret. rewrite Hstats.
  apply Z.eqb_neq in Htotal. fold total_jobs. rewrite Htotal.
  fold n_results min_match_score. split.
  - intros Hno. destruct resume_text as [| resume | |]; try done.
    by destruct (Hno resume).
  - intros resume all_job_results -> Hretrieve Hall.
    cbn [search_query_of]. rewrite Hretrieve.
    destruct all_job_results as [|job rest]; [done|].
    rewrite <- !app_assoc. cbn [app]. split_and!.
    + by intros [text ->].
    + by intros ->.
    + intros threshold -> Hpool Hn.
      destruct (pre_filter (job :: rest)) as [|first pool]; [done|].
      cbn [scoring_loop text_of]. unfold bind, lift.
      by destruct Hn as [[text ->]| ->].
Qed.

(** X7. When no candidate is left to score, the answer says so without
    any completion call: an empty retrieval gives the no-matching-jobs
    text; candidates that are all under the similarity floor, or a
    requested count of zero or less, give the no-match message with zero
    jobs checked. *)
Theorem process_without_candidates (query resume : string)
    (ctx : gmap string PyVal) (stats : gmap string Z)
    (all_job_results : list Job) (t : list event) :
  let total_jobs := default 0%Z (stats !! "total_jobs") in
  let n_results := default (VInt 5) (ctx !! "n_results") in
  let min_match_score :=
    default (VFloat MIN_JOB_MATCH_SCORE) (ctx !! "min_match_score") in
  let called :=
    t ++ [EvStats;
          EvRetrieve (_extract_key_resume_info resume)
            (max_candidates total_jobs)] in
  ctx !! "resume_text" = Some (VStr resume) →
  get_stats = Ret stats →
  total_jobs ≠ 0%Z →
  retrieve_jobs (_extract_key_resume_info resume) (max_candidates total_jobs)
  = Ret all_job_results →
  (all_job_results = [] → run query (Some ctx) t = (Ret no_matching_jobs, called))
  ∧ (∀ threshold,
       all_job_results ≠ [] →
       format_threshold percent0 min_match_score = Ret threshold →
       Forall (λ job, (similarity_score job < 0.35)%Q) all_job_results
       ∨ (∃ n, n_results = VInt n ∧ (n ≤ 0)%Z) →
       run query (Some ctx) t
       = (Ret (no_match_message threshold 0 (length all_job_results)),
          called)).
Proof.
  intros total_jobs n_results min_match_score called
         Hresume Hstats Htotal Hretrieve.
  split.
  - intros ->. rewrite (process_guarded _ _ _ _ Hresume).
    unfold try_except, process_body, bind, lift, ret. rewrite Hstats.
    apply Z.eqb_neq in Htotal. fold total_jobs. rewrite Htotal.
    cbn [search_query_of]. rewrite Hretrieve.
    unfold called. by rewrite <- !app_assoc.
  - intros threshold Hall Hthreshold Hnone.
    rewrite (process_main_path get_stats retrieve_jobs llm_generate exc_text
               get_system_prompt build_job_matching_context
               _extract_key_resume_info percent0 query resume ctx stats
               all_job_results threshold t Hresume Hstats Htotal Hretrieve
               Hall Hthreshold).
    fold total_jobs n_results min_match_score.
    assert (∀ t', scoring_loop llm_generate exc_text get_system_prompt
                    build_job_matching_context query resume n_results
                    min_match_score (pre_filter all_job_results) [] 0 t'
                  = (Ret ([], 0), t')) as ->; [|done].
    intros t'. destruct Hnone as [Hlow|(n & -> & Hn)].
    + by rewrite (pre_filter_none _ Hlow).
    + destruct (pre_filter all_job_results) as [|job pool]; [done|].
      cbn [scoring_loop]. unfold bind, lift, py_len_ge. cbn [length].
      by destruct (Z.leb_spec n (Z.of_nat 0)); [|lia].
Qed.
End CallProperties.


(** ** The loop as a search for the first [n] accepted candidates *)

Section FirstAccepted.
Variable llm_generate : nat -> string -> string -> outcome (option string).
Variable exc_text : exc -> string.
Variable get_system_prompt : string.
Variable build_job_matching_context : string -> list Job -> string -> string.
Variables (query resume_text : string) (n : Z) (min_match_score : PyVal).

Local Abbreviation loop :=
  (scoring_loop llm_generate exc_text get_system_prompt
     build_job_matching_context query resume_text (VInt n) min_match_score).
Local Abbreviation verdict_at :=
  (verdict llm_generate exc_text get_system_prompt
     build_job_matching_context query resume_text min_match_score).
Local Abbreviation accepted_from :=
  (accepted llm_generate exc_text get_system_prompt
     build_job_matching_context query resume_text min_match_score).

(** One pass of the loop body, by the verdict on its candidate. *)
Lemma loop_step_verdict job pool matched_jobs jobs_checked t :
  (Z.of_nat (length matched_jobs) < n)%Z →
  ∃ event,
    loop (job :: pool) matched_jobs jobs_checked t =
      match verdict_at (length t) job with
      | Some entry =>
          if (n <=? Z.of_nat (length matched_jobs + 1))%Z
          then (Ret (matched_jobs ++ [entry], S jobs_checked), t ++ [event])
          else loop pool (matched_jobs ++ [entry]) (S jobs_checked)
                    (t ++ [event])
      | None => loop pool matched_jobs (S jobs_checked) (t ++ [event])
      end
    ∧ is_generate event = true.
Proof.
  intros Hn. eexists (EvGenerate _ _). split; [|done].
  rewrite loop_step by done.
  unfold generate_response, verdict, score_candidate.
  destruct (llm_generate _ _ _) as [[text|]|e]; [|done|].
  all: destruct (_parse_job_scores_from_response _ _ _)
         as [|[[score job_data] section] rest]; [done|].
  all: destruct (py_score_ge _ _) as [[]|]; [|done|done].
  all: cbn [py_len_ge]; rewrite length_app; cbn [length].
  all: by destruct (n <=? _)%Z.
Qed.

Lemma loop_first_accepted pool : ∀ matched_jobs jobs_checked t,
  (Z.of_nat (length matched_jobs) < n)%Z →
  let wanted := Z.to_nat n - length matched_jobs in
  ∃ k gens,
    loop pool matched_jobs jobs_checked t
    = (Ret (matched_jobs ++ take wanted (accepted_from (length t) pool),
            jobs_checked + k),
       t ++ gens)
    ∧ length gens = k
    ∧ Forall (λ e, is_generate e = true) gens
    ∧ k ≤ length pool
    ∧ accepted_from (length t) (take k pool)
      = take wanted (accepted_from (length t) pool)
    ∧ (∀ j, j < k → length (accepted_from (length t) (take j pool)) < wanted)
    ∧ (length (accepted_from (length t) pool) < wanted → k = length pool).
Proof.
  induction pool as [|job pool IH]; intros matched_jobs jobs_checked t Hn wanted.
  { exists 0, []. cbn [accepted scoring_loop ret length].
    rewrite take_nil, !app_nil_r, Nat.add_0_r.
    split_and!; try done. intros j Hj. lia. }
  destruct (loop_step_verdict job pool matched_jobs jobs_checked t Hn)
    as (event & -> & Hevent).
  cbn [accepted]. destruct (verdict_at (length t) job) as [entry|] eqn:Hverdict.
  - destruct (Z.leb_spec n (Z.of_nat (length matched_jobs + 1))) as [Hstop|Hgo].
    + exists 1, [event]. assert (wanted = 1) as -> by (unfold wanted; lia).
      cbn [take accepted length]. rewrite Hverdict, take_0. cbn [accepted].
      split_and!; try done.
      * by rewrite Nat.add_1_r.
      * by constructor.
      * lia.
      * intros j Hj. assert (j = 0) as -> by lia. cbn. lia.
      * lia.
    + destruct (IH (matched_jobs ++ [entry]) (S jobs_checked) (t ++ [event]))
        as (k & gens & -> & Hlen & Hgens & Hk & Htake & Hleast & Hall).
      { rewrite length_app. cbn [length]. lia. }
      rewrite !length_app in *. cbn [length] in *.
      replace (length t + 1) with (S (length t)) in * by lia.
      assert (wanted = S (Z.to_nat n - (length matched_jobs + 1))) as ->
        by (unfold wanted; lia).
      exists (S k), (event :: gens). cbn [take accepted length].
      rewrite Hverdict, Htake, <- !app_assoc. cbn [app].
      split_and!; try done.
      * do 3 f_equal. lia.
      * by rewrite Hlen.
      * by constructor.
      * lia.
      * intros [|j] Hj; cbn [take accepted length]; [lia|].
        rewrite Hverdict. cbn [length].
        specialize (Hleast j). lia.
      * lia.
  - destruct (IH matched_jobs (S jobs_checked) (t ++ [event]) Hn)
      as (k & gens & -> & Hlen & Hgens & Hk & Htake & Hleast & Hall).
    rewrite !length_app in *. cbn [length] in *.
    replace (length t + 1) with (S (length t)) in * by lia.
    exists (S k), (event :: gens). cbn [take accepted length].
    rewrite Hverdict, <- !app_assoc. cbn [app]. fold wanted.
    split_and!; try done.
    + do 3 f_equal. lia.
    + by rewrite Hlen.
    + by constructor.
    + lia.
    + intros [|j] Hj; cbn [take accepted length]; [unfold wanted; lia|].
      rewrite Hverdict. apply Hleast. lia.
    + intros Hfew. by rewrite Hall.
Qed.

(** For any requested count the loop returns the first entries of
    [accepted]; a count of zero or less stops it before the first
    candidate. *)
Lemma loop_takes_accepted (pool : list Job) (t : list event) :
  ∃ gens,
    loop pool [] 0 t
    = (Ret (take (Z.to_nat n) (accepted_from (length t) pool), length gens),
       t ++ gens)
    ∧ Forall (λ e, is_generate e = true) gens
    ∧ length gens ≤ length pool.
Proof.
  destruct (Z.le_gt_cases n 0) as [Hnone|Hsome].
  - exists []. rewrite app_nil_r.
    rewrite (loop_stop llm_generate exc_text get_system_prompt
               build_job_matching_context query resume_text n
               min_match_score pool [] 0 t) by (cbn [length]; lia).
    replace (Z.to_nat n) with 0 by lia.
    split_and!; [done|done|cbn [length]; lia].
  - destruct (loop_first_accepted pool [] 0 t)
      as (k & gens & Hloop & Hlen & Hgens & Hk & _); [cbn [length]; lia|].
    cbn [length app] in Hloop. rewrite Nat.sub_0_r in Hloop.
    exists gens. rewrite Hlen. split_and!; [done|done|lia].
Qed.

(** An entry of [accepted] belongs to the candidate it was made for,
    carries the score found in its section, or zero, and passed the
    threshold test. *)
Lemma verdict_sound (calls : nat) (job : Job) (entry : scored) :
  verdict_at calls job = Some entry →
  entry.1.2 = job
  ∧ entry.1.1 = default 0%Q (find_score score_patterns entry.2)
  ∧ py_score_ge entry.1.1 min_match_score = Ret true.
Proof.
  unfold verdict.
  destruct (match llm_generate calls _ _ with
            | Ret response => response
            | Raise e => Some (apology (exc_text e))
            end) as [text|]; [|done].
  rewrite parse_single.
  destruct (tail (split job_header text)) as [|section sections]; [done|].
  destruct (py_score_ge _ _) as [[]|] eqn:Hge; try done.
  by intros [= <-].
Qed.

(** The entries of [accepted] come in pool order: the candidate at
    position [k] is the one asked about in call number [calls + k]. *)
Lemma accepted_in_pool_order (pool : list Job) : ∀ calls,
  accepted_from calls pool
  = omap (λ found : option scored, found)
         (imap (λ k job, verdict_at (calls + k) job) pool).
Proof.
  induction pool as [|job pool IH]; intros calls; [done|].
  cbn [accepted imap]. rewrite Nat.add_0_r, IH.
  assert (imap (λ k candidate, verdict_at (S calls + k) candidate) pool
          = imap ((λ k candidate, verdict_at (calls + k) candidate) ∘ S)
                 pool) as ->.
  { apply imap_ext. intros k candidate _. cbn. by rewrite Nat.add_succ_r. }
  by destruct (verdict_at calls job).
Qed.

Lemma accepted_jobs_sublist (pool : list Job) : ∀ calls,
  map (λ x : scored, x.1.2) (accepted_from calls pool) `sublist_of` pool.
Proof.
  induction pool as [|job pool IH]; intros calls; [done|].
  cbn [accepted].
  destruct (verdict_at calls job) as [entry|] eqn:Hverdict.
  - destruct (verdict_sound _ _ _ Hverdict) as (<- & _).
    cbn [map]. by apply sublist_skip.
  - by apply sublist_cons.
Qed.

(** X8. For a requested count [n] of at least one, the loop returns the
    first [n] entries of the candidates it would accept, in pool order.
    It checks the shortest prefix of the pool that holds them, or the
    whole pool when fewer than [n] are accepted, and it requests one
    completion per candidate checked and nothing else. *)
Theorem scoring_loop_first_accepted (pool : list Job) (t : list event) :
  (1 ≤ n)%Z →
  ∃ jobs_checked gens,
    loop pool [] 0 t
    = (Ret (take (Z.to_nat n) (accepted_from (length t) pool), jobs_checked),
       t ++ gens)
    ∧ length gens = jobs_checked
    ∧ Forall (λ e, is_generate e = true) gens
    ∧ jobs_checked ≤ length pool
    ∧ accepted_from (length t) (take jobs_checked pool)
      = take (Z.to_nat n) (accepted_from (length t) pool)
    ∧ (∀ j, j < jobs_checked →
         length (accepted_from (length t) (take j pool)) < Z.to_nat n)
    ∧ (length (accepted_from (length t) pool) < Z.to_nat n →
       jobs_checked = length pool).
Proof.
  intros Hn.
  destruct (loop_first_accepted pool [] 0 t)
    as (k & gens & Hloop & Hlen & Hgens & Hk & Htake & Hleast & Hall);
    [cbn; lia|].
  cbn [length app] in *. rewrite Nat.sub_0_r in *.
  by exists k, gens.
Qed.
End FirstAccepted.


(** ** Batches of sections *)

Lemma score_sections_zip (sections : list string) (job_results : list Job)
    (start_job_num : nat) : ∀ i,
  score_sections sections i job_results start_job_num =
    zip_with (λ section job_data,
                (default 0%Q (find_score score_patterns section), job_data,
                 section))
             sections (drop (start_job_num - 1 + i) job_results).
Proof.
  induction sections as [|section sections IH]; intros i; [done|].
  rewrite score_sections_cons, IH.
  replace (start_job_num - 1 + S i) with (S (start_job_num - 1 + i)) by lia.
  destruct (job_results !! (start_job_num - 1 + i)) as [job_data|] eqn:Hjob.
  - by rewrite (drop_S _ _ _ Hjob).
  - apply lookup_ge_None in Hjob. rewrite !drop_ge by lia.
    by destruct sections.
Qed.

(** X9. For a batch that starts at job number [start_job_num], the parser
    pairs the sections after the first header, in order, with the jobs
    from position [start_job_num - 1] on: it stops at the shorter of the
    two, gives each section the score found in it, or zero, and never a
    negative score. *)
Theorem parse_pairs_sections_with_jobs (response : string)
    (job_results : list Job) (start_job_num : nat) :
  1 ≤ start_job_num →
  let sections := tail (split job_header response) in
  let scored_jobs :=
    _parse_job_scores_from_response response job_results start_job_num in
  scored_jobs
  = zip_with (λ section job_data,
                (default 0%Q (find_score score_patterns section), job_data,
                 section))
             sections (drop (start_job_num - 1) job_results)
  ∧ length scored_jobs
    = Nat.min (length sections) (length job_results - (start_job_num - 1))
  ∧ (∀ i score job_data section,
       scored_jobs !! i = Some (score, job_data, section) →
       sections !! i = Some section
       ∧ job_results !! (start_job_num - 1 + i) = Some job_data
       ∧ score = default 0%Q (find_score score_patterns section)
       ∧ (0 <= score)%Q).
Proof.
  intros _ sections scored_jobs.
  assert (scored_jobs
          = zip_with (λ section job_data,
                        (default 0%Q (find_score score_patterns section),
                         job_data, section))
                     sections (drop (start_job_num - 1) job_results)) as Hzip.
  { unfold scored_jobs, _parse_job_scores_from_response.
    by rewrite score_sections_zip, Nat.add_0_r. }
  split; [done|]. rewrite Hzip. split.
  - by rewrite length_zip_with, length_drop.
  - intros i score job_data section Hi.
    apply lookup_zip_with_Some in Hi
      as (section' & job' & Hentry & Hsection & Hjob).
    pose proof (f_equal (λ x : scored, x.1.1) Hentry) as Hscore.
    pose proof (f_equal (λ x : scored, x.1.2) Hentry) as Hdata.
    pose proof (f_equal (λ x : scored, x.2) Hentry) as Htext.
    cbn beta iota delta [fst snd] in Hscore, Hdata, Htext.
    clear Hentry. subst score job_data section.
    rewrite lookup_drop in Hjob. do 3 (split; [done|]).
    destruct (find_score score_patterns section') as [s|] eqn:Hfound;
      [|apply Qle_refl].
    destruct (find_score_nonneg _ _ _ Hfound) as (x & Hx & ->).
    by apply percent_nonneg.
Qed.

Lemma parse_pairs_sections_with_jobs_witness :
  _parse_job_scores_from_response
    (Demo.analysis 1 "Analyst" "70" +:+ Demo.analysis 2 "Engineer" "90")
    Demo.low_then_high 2
  = zip_with (λ section job_data,
                (default 0%Q (find_score score_patterns section), job_data,
                 section))
      (tail (split job_header
               (Demo.analysis 1 "Analyst" "70"
                +:+ Demo.analysis 2 "Engineer" "90")))
      (drop 1 Demo.low_then_high).
Proof.
  exact (proj1 (parse_pairs_sections_with_jobs
                  (Demo.analysis 1 "Analyst" "70"
                   +:+ Demo.analysis 2 "Engineer" "90")
                  Demo.low_then_high 2 ltac:(lia))).
Defined.

(** ** Context validation *)

(** X10. A context is valid exactly when it is a dictionary that is not
    empty and holds every required key; so an empty dictionary is refused
    even when nothing is required, and requiring two lists of keys is
    requiring each of them. *)
Theorem validate_context_iff (context : option (gmap string PyVal))
    (required_keys more_keys : list string) :
  (validate_context context required_keys = true ↔
   ∃ ctx, context = Some ctx ∧ ctx ≠ ∅
          ∧ ∀ key, key ∈ required_keys → is_Some (ctx !! key))
  ∧ validate_context (Some ∅) [] = false
  ∧ validate_context context (required_keys ++ more_keys)
    = validate_context context required_keys
      && validate_context context more_keys.
Proof.
  assert (∀ (ctx : gmap string PyVal) keys,
            match filter (λ key, ctx !! key = None) keys with
            | [] => true
            | _ :: _ => false
            end = true
            ↔ ∀ key, key ∈ keys → is_Some (ctx !! key)) as Hkeys.
  { intros ctx keys. induction keys as [|key keys IH].
    { split; [|done]. intros _ key Hkey. by apply elem_of_nil in Hkey. }
    destruct (ctx !! key) as [v|] eqn:Hkey.
    - rewrite filter_cons_False by by rewrite Hkey. rewrite IH. split.
      + intros Hall key' [->|Hin]%elem_of_cons; [by rewrite Hkey|auto].
      + intros Hall key' Hin. apply Hall. by right.
    - rewrite filter_cons_True by done. split; [done|].
      intros Hall. destruct (Hall key) as [v Hv]; [by left|congruence]. }
  split_and!.
  - unfold validate_context. destruct context as [ctx|].
    2: { split; [done|]. by intros (ctx & ? & _). }
    destruct (decide (ctx = ∅)) as [->|Hne].
    { split; [done|]. by intros (ctx & [= <-] & ? & _). }
    rewrite Hkeys. split.
    + intros Hall. by exists ctx.
    + by intros (ctx' & [= <-] & _ & Hall).
  - done.
  - unfold validate_context. destruct context as [ctx|]; [|done].
    destruct (decide (ctx = ∅)); [done|]. rewrite filter_app.
    destruct (filter _ required_keys); [|done].
    by destruct (filter _ more_keys).
Qed.


(** ** The filter on a finished response *)

Lemma insert_by_score_perm (x : section_entry) (l : list section_entry) :
  insert_by_score x l ≡ₚ x :: l.
Proof.
  induction l as [|y l IH]; [done|]. cbn [insert_by_score].
  destruct (Qle_bool _ _); [done|]. by rewrite IH, Permutation_swap.
Qed.

Lemma sort_by_score_perm (l : list section_entry) : sort_by_score l ≡ₚ l.
Proof.
  induction l as [|x l IH]; [done|]. cbn [sort_by_score foldr].
  fold (sort_by_score l). by rewrite insert_by_score_perm, IH.
Qed.

Lemma ranks_before_later (x y z : section_entry) :
  (y.1.1 <= x.1.1)%Q → ranks_before y z → x.2 < z.2 → ranks_before x z.
Proof.
  intros Hyx [Hlt|[Heq Hnum]] Hxz.
  - left. exact (Qlt_le_trans _ _ _ Hlt Hyx).
  - destruct (Qle_lt_or_eq _ _ Hyx) as [Hlt|Hsame].
    + left. by rewrite Heq.
    + right. split; [|done]. by rewrite Heq.
Qed.

Lemma insert_by_score_sorted (x : section_entry) (l : list section_entry) :
  Forall (λ y, x.2 < y.2) l →
  StronglySorted ranks_before l →
  StronglySorted ranks_before (insert_by_score x l).
Proof.
  induction l as [|y l IH]; intros Hnum Hsorted.
  { by repeat constructor. }
  apply Forall_cons in Hnum as [Hxy Hnum].
  apply StronglySorted_inv in Hsorted as [Hsorted Hy].
  cbn [insert_by_score]. destruct (Qle_bool _ _) eqn:Hle.
  - apply Qle_bool_iff in Hle. constructor; [by constructor|].
    constructor.
    + destruct (Qle_lt_or_eq _ _ Hle) as [Hlt|Hsame]; [by left|by right].
    + apply Forall_forall. intros z Hz.
      apply (ranks_before_later x y z Hle).
      * by apply (proj1 (Forall_forall _ _) Hy).
      * by apply (proj1 (Forall_forall _ _) Hnum).
  - assert (x.1.1 < y.1.1)%Q as Hlt.
    { apply Qnot_le_lt. intros Hyx. apply Qle_bool_iff in Hyx. congruence. }
    constructor; [by apply IH|].
    rewrite insert_by_score_perm. constructor; [by left|done].
Qed.

Lemma scored_sections_numbers (sections : list string) (min_score : Q) :
  ∀ i, Forall (λ y : section_entry, i ≤ y.2)
              (scored_sections sections i min_score)
       ∧ StronglySorted (λ a b : section_entry, a.2 < b.2)
                        (scored_sections sections i min_score).
Proof.
  induction sections as [|section sections IH]; intros i.
  { split; constructor. }
  destruct (IH (S i)) as [Hfrom Hsorted]. cbn [scored_sections].
  assert (Forall (λ y : section_entry, i ≤ y.2)
                 (scored_sections sections (S i) min_score)) as Hrest.
  { eapply Forall_impl; [exact Hfrom|]. cbn. intros y. lia. }
  destruct (find_score _ _) as [score_value|]; [|done].
  destruct (Qle_bool _ _); [|done]. split.
  - by constructor.
  - constructor; [done|]. eapply Forall_impl; [exact Hfrom|]. cbn. lia.
Qed.

Lemma sort_by_score_sorted (l : list section_entry) :
  StronglySorted (λ a b : section_entry, a.2 < b.2) l →
  StronglySorted ranks_before (sort_by_score l).
Proof.
  induction 1 as [|x l Hsorted IH Hx]; [constructor|].
  cbn [sort_by_score foldr]. fold (sort_by_score l).
  apply insert_by_score_sorted; [|done]. by rewrite sort_by_score_perm.
Qed.

Lemma scored_sections_sound (sections : list string) (min_score : Q) :
  ∀ i, Forall (λ entry : section_entry,
                 sections !! (entry.2 - i) = Some entry.1.2
                 ∧ i ≤ entry.2
                 ∧ find_score score_patterns entry.1.2 = Some entry.1.1
                 ∧ (min_score <= entry.1.1)%Q)
              (scored_sections sections i min_score).
Proof.
  induction sections as [|section sections IH]; intros i; [constructor|].
  cbn [scored_sections].
  assert (Forall (λ entry : section_entry,
                    (section :: sections) !! (entry.2 - i) = Some entry.1.2
                    ∧ i ≤ entry.2
                    ∧ find_score score_patterns entry.1.2 = Some entry.1.1
                    ∧ (min_score <= entry.1.1)%Q)
                 (scored_sections sections (S i) min_score)) as Hrest.
  { eapply Forall_impl; [exact (IH (S i))|]. cbn.
    intros [[score text] num]. cbn. intros (Hlookup & Hnum & Hscore & Hmin).
    replace (num - i) with (S (num - S i)) by lia. split_and!; try done. lia. }
  destruct (find_score _ section) as [score_value|] eqn:Hscore; [|done].
  destruct (Qle_bool _ _) eqn:Hle; [|done].
  constructor; [|done]. cbn. rewrite Nat.sub_diag.
  split_and!; try done. by apply Qle_bool_iff.
Qed.

Lemma slice_to_sublist {A} (xs : list A) (stop : Z) :
  ∃ k, slice_to xs stop = take k xs ∧ ((0 ≤ stop)%Z → k = Z.to_nat stop).
Proof.
  unfold slice_to. destruct (Z.leb_spec 0 stop).
  - by exists (Z.to_nat stop).
  - eexists. split; [done|lia].
Qed.

(** X11. The sections [_filter_by_match_score] keeps: each one is a
    section of the response, with the number it had there, holds a score
    that reaches [min_score], and is kept once; they come by falling
    score, sections of equal score in the order of the response; and for
    a [max_results] that is not negative there are at most that many. *)
Theorem top_scored_sound (response : string) (min_score : Q)
    (max_results : Z) :
  let sections := tail (split job_header response) in
  let kept := top_scored response min_score max_results in
  Forall (λ entry : section_entry,
            1 ≤ entry.2
            ∧ sections !! (entry.2 - 1) = Some entry.1.2
            ∧ find_score score_patterns entry.1.2 = Some entry.1.1
            ∧ (min_score <= entry.1.1)%Q) kept
  ∧ NoDup (map snd kept)
  ∧ StronglySorted ranks_before kept
  ∧ ((0 ≤ max_results)%Z → (Z.of_nat (length kept) ≤ max_results)%Z)
  ∧ kept ⊆+ scored_sections sections 1 min_score.
Proof.
  intros sections kept. unfold kept, top_scored. fold sections.
  destruct (slice_to_sublist
              (sort_by_score (scored_sections sections 1 min_score))
              max_results) as (k & -> & Hk).
  assert (take k (sort_by_score (scored_sections sections 1 min_score))
          ⊆+ scored_sections sections 1 min_score) as Hsub.
  { rewrite <- (sort_by_score_perm (scored_sections sections 1 min_score))
      at 2.
    apply sublist_submseteq, sublist_take. }
  destruct (scored_sections_numbers sections min_score 1) as [_ Hnum].
  split_and!.
  - apply Forall_forall. intros entry Hentry.
    pose proof (proj1 (Forall_forall _ _)
                  (scored_sections_sound sections min_score 1) entry) as H.
    destruct H as (? & ? & ? & ?); [|done].
    eapply elem_of_submseteq; [exact Hentry|exact Hsub].
  - assert (NoDup (map snd (scored_sections sections 1 min_score))) as Hnd.
    { clear -Hnum. induction Hnum as [|x l _ IH Hx]; [constructor|].
      cbn [map]. constructor; [|done].
      intros (y & Hy & Hin)%list_elem_of_fmap.
      pose proof (proj1 (Forall_forall _ _) Hx y Hin) as Hlt.
      cbn beta in Hlt. rewrite Hy in Hlt. lia. }
    apply submseteq_Permutation in Hsub as [rest Hperm].
    rewrite Hperm, fmap_app in Hnd. by apply NoDup_app in Hnd as [? _].
  - apply (StronglySorted_app_1_l _ _
             (drop k (sort_by_score (scored_sections sections 1 min_score)))).
    rewrite take_drop. by apply sort_by_score_sorted.
  - intros Hmax. rewrite length_take, (Hk Hmax). lia.
  - done.
Qed.

(** X12. A response with no job header comes back from
    [_filter_by_match_score] as it is. A response with a header of which
    no section is kept comes back as the text before the first header,
    followed by the message that none of the [len(job_results)] jobs met
    the threshold. *)
Theorem filter_by_match_score_edges (percent0 : Q -> string)
    (response : string) (min_score : Q) (job_results : list Job)
    (max_results : Z) :
  (search job_header response = None →
   _filter_by_match_score percent0 response min_score job_results max_results
   = response)
  ∧ (∀ m, search job_header response = Some m →
          top_scored response min_score max_results = [] →
          _filter_by_match_score percent0 response min_score job_results
                                 max_results
          = m_pre m
            +:+ none_above_threshold (percent0 min_score)
                                     (length job_results)).
Proof.
  unfold _filter_by_match_score. split.
  - intros Hnone. by rewrite (split_no_match _ _ Hnone).
  - intros m Hm ->. unfold split.
    destruct response as [|c rest].
    { by vm_compute in Hm. }
    cbn [String.length split_fuel]. rewrite Hm.
    cbn [length head default top_sections join foldr].
    assert (1 ≤ length (split_fuel (String.length rest) job_header
                                   (m_post m))) as Hrest.
    { destruct (String.length rest) as [|fuel]; cbn [split_fuel];
        [cbn [length]; lia|].
      destruct (search job_header (m_post m)); cbn [length]; lia. }
    rewrite decide_False by lia.
    cbn [Datatypes.id]. by rewrite app_empty_r.
Qed.


(** ** The answer of [process] on its main path *)

Section MainPath.
Variable get_stats : outcome (gmap string Z).
Variable retrieve_jobs : string -> Z -> outcome (list Job).
Variable llm_generate : nat -> string -> string -> outcome (option string).
Variable exc_text : exc -> string.
Variable get_system_prompt : string.
Variable build_job_matching_context : string -> list Job -> string -> string.
Variable _extract_key_resume_info : string -> string.
Variable percent0 : Q -> string.

Local Abbreviation run :=
  (process get_stats retrieve_jobs llm_generate exc_text get_system_prompt
     build_job_matching_context _extract_key_resume_info percent0).

(** X13. With a resume, a corpus that is not empty, a retrieval that
    finds something, a numeric threshold and a requested count [n] of at
    least one, the answer of [process] is fixed by the first [n]
    candidates that pass the pre-filter and are accepted: their sections
    under the header when there are any, the no-match message with the
    number of candidates checked when there are none. The calls are the
    statistics call, the retrieval, and one completion per candidate
    checked. *)
Theorem process_answers_first_accepted (query resume : string)
    (ctx : gmap string PyVal) (stats : gmap string Z)
    (all_job_results : list Job) (threshold : string) (n : Z)
    (t : list event) :
  let total_jobs := default 0%Z (stats !! "total_jobs") in
  let min_match_score :=
    default (VFloat MIN_JOB_MATCH_SCORE) (ctx !! "min_match_score") in
  let search_query := _extract_key_resume_info resume in
  let found :=
    take (Z.to_nat n)
      (accepted llm_generate exc_text get_system_prompt
         build_job_matching_context query resume min_match_score
         (length t + 2) (pre_filter all_job_results)) in
  ctx !! "resume_text" = Some (VStr resume) →
  get_stats = Ret stats →
  total_jobs ≠ 0%Z →
  retrieve_jobs search_query (max_candidates total_jobs)
    = Ret all_job_results →
  all_job_results ≠ [] →
  format_threshold percent0 min_match_score = Ret threshold →
  default (VInt 5) (ctx !! "n_results") = VInt n →
  (1 ≤ n)%Z →
  ∃ gens,
    run query (Some ctx) t
    = (Ret match found with
           | [] => no_match_message threshold (length gens)
                                    (length all_job_results)
           | _ :: _ => final_response threshold found
           end,
       t ++ [EvStats; EvRetrieve search_query (max_candidates total_jobs)]
         ++ gens)
    ∧ Forall (λ e, is_generate e = true) gens
    ∧ length gens ≤ length (pre_filter all_job_results)
    ∧ (length found < Z.to_nat n →
       length gens = length (pre_filter all_job_results)).
Proof.
  intros total_jobs min_match_score search_query found
         Hresume Hstats Htotal Hretrieve Hall Hthreshold Hcount Hn.
  rewrite (process_main_path get_stats retrieve_jobs llm_generate exc_text
             get_system_prompt build_job_matching_context
             _extract_key_resume_info percent0 query resume ctx stats
             all_job_results threshold t Hresume Hstats Htotal Hretrieve
             Hall Hthreshold).
  fold total_jobs min_match_score search_query. rewrite Hcount.
  destruct (loop_first_accepted llm_generate exc_text get_system_prompt
              build_job_matching_context query resume n min_match_score
              (pre_filter all_job_results) [] 0
              (t ++ [EvStats]
                 ++ [EvRetrieve search_query (max_candidates total_jobs)]))
    as (k & gens & -> & Hlen & Hgens & Hk & Htake & Hleast & Hfew);
    [cbn; lia|].
  cbn [length app fst snd] in *. rewrite Nat.sub_0_r in *.
  rewrite !length_app in *. cbn [length] in *.
  replace (length t + (1 + 1)) with (length t + 2) in * by lia.
  exists gens. fold found. rewrite Hlen, <- app_assoc. cbn [app].
  split_and!; try done.
  unfold found. rewrite length_take. intros Hshort. apply Hfew. lia.
Qed.

(** The main path for any requested count. *)
Lemma process_takes_accepted (query resume : string)
    (ctx : gmap string PyVal) (stats : gmap string Z)
    (all_job_results : list Job) (threshold : string) (n : Z)
    (t : list event) :
  let total_jobs := default 0%Z (stats !! "total_jobs") in
  let min_match_score :=
    default (VFloat MIN_JOB_MATCH_SCORE) (ctx !! "min_match_score") in
  let search_query := _extract_key_resume_info resume in
  let matched_jobs :=
    take (Z.to_nat n)
      (accepted llm_generate exc_text get_system_prompt
         build_job_matching_context query resume min_match_score
         (length t + 2) (pre_filter all_job_results)) in
  ctx !! "resume_text" = Some (VStr resume) →
  get_stats = Ret stats →
  total_jobs ≠ 0%Z →
  retrieve_jobs search_query (max_candidates total_jobs)
    = Ret all_job_results →
  all_job_results ≠ [] →
  format_threshold percent0 min_match_score = Ret threshold →
  default (VInt 5) (ctx !! "n_results") = VInt n →
  ∃ gens,
    run query (Some ctx) t
    = (Ret match matched_jobs with
           | [] => no_match_message threshold (length gens)
                                    (length all_job_results)
           | _ :: _ => final_response threshold matched_jobs
           end,
       t ++ [EvStats; EvRetrieve search_query (max_candidates total_jobs)]
         ++ gens)
    ∧ Forall (λ e, is_generate e = true) gens
    ∧ length gens ≤ length (pre_filter all_job_results).
Proof.
  intros total_jobs min_match_score search_query matched_jobs
         Hresume Hstats Htotal Hretrieve Hall Hthreshold Hcount.
  rewrite (process_main_path get_stats retrieve_jobs llm_generate exc_text
             get_system_prompt build_job_matching_context
             _extract_key_resume_info percent0 query resume ctx stats
             all_job_results threshold t Hresume Hstats Htotal Hretrieve
             Hall Hthreshold).
  fold total_jobs min_match_score search_query. rewrite Hcount.
  destruct (loop_takes_accepted llm_generate exc_text get_system_prompt
              build_job_matching_context query resume n min_match_score
              (pre_filter all_job_results)
              (t ++ [EvStats]
                 ++ [EvRetrieve search_query (max_candidates total_jobs)]))
    as (gens & -> & Hgens & Hlen).
  rewrite !length_app. cbn [length fst snd].
  replace (length t + (1 + 1)) with (length t + 2) by lia.
  exists gens. fold matched_jobs. rewrite <- app_assoc. cbn [app].
  by split_and!.
Qed.
End MainPath.

(** ** Order of the matches *)

Lemma map_take_sublist {A B} (f : A → B) (l : list A) : ∀ n,
  map f (take n l) `sublist_of` map f l.
Proof.
  induction l as [|x l IH]; intros [|n]; cbn [take map]; try done.
  - apply sublist_nil_l.
  - by apply sublist_skip.
Qed.

(** C2. The matches come in discovery order. For every requested count
    [n] the scoring loop returns the first [n] entries of [accepted],
    which lists the accepted candidates by their position in the pool,
    each entry with the candidate it was made for, so the jobs of the
    matches are a sublist of the pool; scores play no part in the order.
    On its main path [process] answers with the header followed by the
    sections of these matches, joined in that same order, the section at
    position [k] after the renumbering substitution with rank [k + 1].
    With a first candidate scoring 70% and a second scoring 90%, both
    above the threshold of 60%, asking for one result accepts the first
    candidate after one completion call and [process] returns its section
    alone; asking for two returns the section of the first candidate
    followed by that of the second. *)
Theorem matches_in_discovery_order :
  (∀ llm_generate exc_text get_system_prompt build_job_matching_context
     query resume_text n min_match_score pool t,
     let verdict_at :=
       verdict llm_generate exc_text get_system_prompt
         build_job_matching_context query resume_text min_match_score in
     let found :=
       accepted llm_generate exc_text get_system_prompt
         build_job_matching_context query resume_text min_match_score
         (length t) pool in
     (∃ gens,
        scoring_loop llm_generate exc_text get_system_prompt
          build_job_matching_context query resume_text (VInt n)
          min_match_score pool [] 0 t
        = (Ret (take (Z.to_nat n) found, length gens), t ++ gens))
     ∧ found
       = omap (λ entry : option scored, entry)
              (imap (λ k job, verdict_at (length t + k) job) pool)
     ∧ (∀ calls job entry,
          verdict_at calls job = Some entry → entry.1.2 = job)
     ∧ map (λ x : scored, x.1.2) (take (Z.to_nat n) found)
       `sublist_of` pool)
  ∧ (∀ get_stats retrieve_jobs llm_generate exc_text get_system_prompt
       build_job_matching_context _extract_key_resume_info percent0
       query resume (ctx : gmap string PyVal) (stats : gmap string Z)
       all_job_results threshold n t,
       let total_jobs := default 0%Z (stats !! "total_jobs") in
       let min_match_score :=
         default (VFloat MIN_JOB_MATCH_SCORE) (ctx !! "min_match_score") in
       let search_query := _extract_key_resume_info resume in
       let matched_jobs :=
         take (Z.to_nat n)
           (accepted llm_generate exc_text get_system_prompt
              build_job_matching_context query resume min_match_score
              (length t + 2) (pre_filter all_job_results)) in
       ctx !! "resume_text" = Some (VStr resume) →
       get_stats = Ret stats →
       total_jobs ≠ 0%Z →
       retrieve_jobs search_query (max_candidates total_jobs)
         = Ret all_job_results →
       all_job_results ≠ [] →
       format_threshold percent0 min_match_score = Ret threshold →
       default (VInt 5) (ctx !! "n_results") = VInt n →
       ∃ gens,
         process get_stats retrieve_jobs llm_generate exc_text
           get_system_prompt build_job_matching_context
           _extract_key_resume_info percent0 query (Some ctx) t
         = (Ret match matched_jobs with
                | [] => no_match_message threshold (length gens)
                                         (length all_job_results)
                | _ :: _ =>
                    ("## 🎯 " +:+ pretty (length matched_jobs)
                     +:+ " Job Matches Found (First "
                     +:+ pretty (length matched_jobs)
                     +:+ " Above " +:+ threshold +:+ "% Threshold)"
                     +:+ nl +:+ nl)
                    +:+ join (imap (λ k (x : scored),
                                      sub1 job_label
                                           ("### Job #" +:+ pretty (S k)
                                            +:+ ":") x.2)
                                   matched_jobs)
                end,
            t ++ [EvStats;
                  EvRetrieve search_query (max_candidates total_jobs)]
              ++ gens))
  ∧ (let low := Demo.job 1 "A" 0.8 in
     let high := Demo.job 2 "B" 0.7 in
     ∃ low_section high_section t1 t2,
       Demo.loop Demo.low_then_high_table 1 0.6 [low; high] []
       = (Ret ([(0.70%Q, low, low_section)], 1), t1)
       ∧ completion_calls t1 = 1
       ∧ Demo.loop Demo.low_then_high_table 2 0.6 [low; high] []
         = (Ret ([(0.70%Q, low, low_section); (0.90%Q, high, high_section)],
                 2), t2)
       ∧ low_section ≠ high_section
       ∧ Demo.agent [low; high] Demo.low_then_high_table "find jobs"
                    (Demo.context 1 0.6) []
         = (Ret ("## 🎯 1 Job Matches Found (First 1 Above 60% Threshold)"
                 +:+ nl +:+ nl +:+ low_section),
            [EvStats; EvRetrieve "Skills: Python, SQL" 2] ++ t1)
       ∧ Demo.agent [low; high] Demo.low_then_high_table "find jobs"
                    (Demo.context 2 0.6) []
         = (Ret ("## 🎯 2 Job Matches Found (First 2 Above 60% Threshold)"
                 +:+ nl +:+ nl +:+ low_section +:+ high_section),
            [EvStats; EvRetrieve "Skills: Python, SQL" 2] ++ t2)).
Proof.
  split_and!.
  - intros llm_generate exc_text get_system_prompt
           build_job_matching_context query resume_text n min_match_score
           pool t verdict_at found.
    split_and!.
    + destruct (loop_takes_accepted llm_generate exc_text get_system_prompt
                  build_job_matching_context query resume_text n
                  min_match_score pool t) as (gens & Hloop & _).
      by exists gens.
    + apply accepted_in_pool_order.
    + intros calls job entry Hentry.
      by destruct (verdict_sound _ _ _ _ _ _ _ _ _ _ Hentry).
    + etrans; [|apply (accepted_jobs_sublist llm_generate exc_text
                         get_system_prompt build_job_matching_context query
                         resume_text min_match_score pool (length t))].
      apply map_take_sublist.
  - intros get_stats retrieve_jobs llm_generate exc_text get_system_prompt
           build_job_matching_context _extract_key_resume_info percent0
           query resume ctx stats all_job_results threshold n t
           total_jobs min_match_score search_query matched_jobs
           Hresume Hstats Htotal Hretrieve Hall Hthreshold Hcount.
    destruct (process_takes_accepted get_stats retrieve_jobs llm_generate
                exc_text get_system_prompt build_job_matching_context
                _extract_key_resume_info percent0 query resume ctx stats
                all_job_results threshold n t Hresume Hstats Htotal
                Hretrieve Hall Hthreshold Hcount) as (gens & -> & _).
    exists gens. fold total_jobs min_match_score search_query matched_jobs.
    do 2 f_equal. destruct matched_jobs as [|first rest]; [done|].
    unfold final_response. by rewrite ranked_sections_imap.
  - intros low high. do 4 eexists.
    split_and!; try (vm_compute; reflexivity). by vm_compute.
Qed.

Lemma matches_in_discovery_order_witness :
  let ctx : gmap string PyVal :=
    {[ "resume_text" := VStr "Skills: Python, SQL";
       "n_results" := VInt 2; "min_match_score" := VFloat 0.6 ]} in
  let stats : gmap string Z :=
    {[ "total_jobs" := 2%Z; "total_resumes" := 0%Z ]} in
  ctx !! "resume_text" = Some (VStr "Skills: Python, SQL")
  ∧ default 0%Z (stats !! "total_jobs") ≠ 0%Z
  ∧ default (VInt 5) (ctx !! "n_results") = VInt 2
  ∧ ∃ response gens,
      Demo.agent Demo.low_then_high Demo.low_then_high_table "find jobs"
                 (Some ctx) []
      = (Ret response,
         [EvStats; EvRetrieve "Skills: Python, SQL" 2] ++ gens).
Proof.
  intros ctx stats.
  assert (ctx !! "resume_text" = Some (VStr "Skills: Python, SQL"))
    as Hresume by reflexivity.
  assert (default 0%Z (stats !! "total_jobs") ≠ 0%Z) as Htotal
    by (vm_compute; discriminate).
  assert (default (VInt 5) (ctx !! "n_results") = VInt 2) as Hcount
    by reflexivity.
  split; [exact Hresume|]. split; [exact Htotal|]. split; [exact Hcount|].
  destruct (proj1 (proj2 matches_in_discovery_order) (Demo.stats 2)
              (fun _ _ => Ret Demo.low_then_high)
              (Demo.answers Demo.low_then_high_table) Demo.exc_text
              "system prompt" Demo.build (fun s => s)
              (fun x => pretty (Qfloor (x * 100)))
              "find jobs" "Skills: Python, SQL" ctx stats
              Demo.low_then_high "60" 2%Z []
              Hresume eq_refl Htotal eq_refl ltac:(discriminate) eq_refl
              Hcount)
    as (gens & Hrun).
  eexists _, gens. exact Hrun.
Defined.

(** ** Range of the scores *)

(** The score [find_score] gives is the number a score pattern captured
    in the section, divided by 100. *)
Lemma find_score_captured (patterns : list regex) (section : string)
    (s : Q) :
  find_score patterns section = Some s →
  ∃ pattern m text captured,
    pattern ∈ patterns
    ∧ search pattern section = Some m
    ∧ m_group1 m = Some text
    ∧ float text = Some captured
    ∧ (0 <= captured)%Q
    ∧ s = (captured / 100)%Q.
Proof.
  induction patterns as [|pattern patterns IH]; [done|].
  cbn [find_score].
  assert (find_score patterns section = Some s →
          ∃ pattern' m text captured,
            pattern' ∈ pattern :: patterns
            ∧ search pattern' section = Some m
            ∧ m_group1 m = Some text
            ∧ float text = Some captured
            ∧ (0 <= captured)%Q
            ∧ s = (captured / 100)%Q) as Hlater.
  { intros Hs. destruct (IH Hs) as (pattern' & m & text & captured & Hin & ?).
    exists pattern', m, text, captured. split; [by right|done]. }
  destruct (search pattern section) as [m|] eqn:Hsearch; [|done].
  destruct (m_group1 m) as [text|] eqn:Hgroup; [|done].
  cbn [mbind option_bind].
  destruct (float text) as [captured|] eqn:Hfloat; [|done].
  intros [= <-]. exists pattern, m, text, captured.
  split_and!; try done; [by left|by apply (float_nonneg text)].
Qed.

(** C9 (amended). Every entry of [matched_jobs] passed the threshold
    test and carries the score of its own section: zero when no score
    pattern gives a number there, and otherwise the number a score pattern
    captured in that section, divided by 100. The score is never negative,
    and it is at most 1 exactly when the captured number is at most 100.
    Nothing clamps it: a response that states the percentage [N] in one of
    the score formats after a job header is stored with the score
    [N / 100], above 1 for every [N] over 100. *)
Theorem accepted_scores_range :
  (∀ llm_generate exc_text get_system_prompt build_job_matching_context
     query resume_text n min_match_score pool t,
     ∃ matched_jobs jobs_checked t',
       scoring_loop llm_generate exc_text get_system_prompt
         build_job_matching_context query resume_text (VInt n)
         min_match_score pool [] 0 t
       = (Ret (matched_jobs, jobs_checked), t')
       ∧ Forall (λ x : scored,
                   py_score_ge x.1.1 min_match_score = Ret true
                   ∧ (0 <= x.1.1)%Q
                   ∧ match find_score score_patterns x.2 with
                     | None => x.1.1 = 0%Q
                     | Some s =>
                         x.1.1 = s
                         ∧ ∃ pattern m text captured,
                             pattern ∈ score_patterns
                             ∧ search pattern x.2 = Some m
                             ∧ m_group1 m = Some text
                             ∧ float text = Some captured
                             ∧ (0 <= captured)%Q
                             ∧ x.1.1 = (captured / 100)%Q
                             ∧ (x.1.1 <= 1 ↔ captured <= 100)%Q
                     end) matched_jobs)
  ∧ (∀ llm_generate exc_text get_system_prompt build_job_matching_context
       query resume_text n min_match_score job t f percentage space,
       let section := space +:+ format_score f percentage in
       (1 ≤ n)%Z →
       all_chars is_space space = true →
       llm_generate (length t)
         (build_job_matching_context resume_text [job] query
          +:+ threshold_instruction) get_system_prompt
       = Ret (Some ("### Job #1:" +:+ section)) →
       py_score_ge (percent_score percentage) min_match_score = Ret true →
       (∃ jobs_checked t',
          scoring_loop llm_generate exc_text get_system_prompt
            build_job_matching_context query resume_text (VInt n)
            min_match_score [job] [] 0 t
          = (Ret ([(percent_score percentage, job, section)], jobs_checked),
             t'))
       ∧ ((100 < percentage)%N → ¬ (percent_score percentage <= 1)%Q)).
Proof.
  split.
  - intros llm_generate exc_text get_system_prompt
           build_job_matching_context query resume_text n min_match_score
           pool t.
    destruct (loop_result llm_generate exc_text get_system_prompt
                build_job_matching_context query resume_text n
                min_match_score pool [] 0 t)
      as (extra & k & t' & Heq & _ & _ & Hall & _ & _).
    exists extra, k, t'. split; [done|].
    eapply Forall_impl; [exact Hall|]. intros [[s job] section] [Hge Hs].
    cbn [fst snd] in *. split; [done|].
    destruct (find_score score_patterns section) as [s'|] eqn:Hfind.
    + cbn [default from_option Datatypes.id] in Hs. subst s'.
      destruct (find_score_captured _ _ _ Hfind)
        as (pattern & m & text & captured & Hin & Hm & Hg & Hf & Hc & ->).
      split; [by apply percent_nonneg|]. split; [done|].
      exists pattern, m, text, captured. split_and!; try done.
      apply percent_le_1.
    + cbn [default from_option Datatypes.id] in Hs. by subst s.
  - intros llm_generate exc_text get_system_prompt
           build_job_matching_context query resume_text n min_match_score
           job t f percentage space section Hn Hspace Hanswer Hge.
    split.
    + destruct (loop_takes_accepted llm_generate exc_text get_system_prompt
                  build_job_matching_context query resume_text n
                  min_match_score [job] t) as (gens & Hloop & _).
      exists (length gens), (t ++ gens). rewrite Hloop. do 2 f_equal.
      cbn [accepted]. unfold verdict. rewrite Hanswer.
      rewrite parse_single, split_after_header
        by (by apply job_header_absent).
      cbn [tail]. unfold section.
      rewrite !find_score_format by done.
      cbn [default from_option Datatypes.id]. rewrite Hge.
      by rewrite take_ge by (cbn [length]; lia).
    + intros Hover Hle. unfold percent_score in Hle.
      apply percent_le_1 in Hle. unfold Qle in Hle. cbn in Hle. lia.
Qed.

Lemma accepted_scores_range_witness :
  let job := Demo.job 1 "A" 0.8 in
  (1 ≤ 1)%Z
  ∧ all_chars is_space " " = true
  ∧ py_score_ge (percent_score 150) (VFloat 0.6) = Ret true
  ∧ (100 < 150)%N
  ∧ (∃ jobs_checked t',
       scoring_loop
         (fun _ _ _ => Ret (Some ("### Job #1: Match Score: 150%")))
         Demo.exc_text "system prompt" Demo.build "find jobs"
         "Skills: Python, SQL" (VInt 1) (VFloat 0.6) [job] [] 0 []
       = (Ret ([(percent_score 150, job, " Match Score: 150%")],
               jobs_checked), t'))
  ∧ ¬ (percent_score 150 <= 1)%Q.
Proof.
  intros job.
  assert (1 ≤ 1)%Z as Hn by lia.
  assert (all_chars is_space " " = true) as Hspace by reflexivity.
  assert (py_score_ge (percent_score 150) (VFloat 0.6) = Ret true) as Hge
    by reflexivity.
  assert (100 < 150)%N as Hover by lia.
  split; [exact Hn|]. split; [exact Hspace|]. split; [exact Hge|].
  split; [exact Hover|].
  destruct (proj2 accepted_scores_range
              (fun _ _ _ => Ret (Some ("### Job #1: Match Score: 150%")))
              Demo.exc_text "system prompt" Demo.build "find jobs"
              "Skills: Python, SQL" 1%Z (VFloat 0.6) job [] MatchScore 150%N
              " " Hn Hspace eq_refl Hge) as [Hloop Hnot].
  split; [exact Hloop|exact (Hnot Hover)].
Defined.

(** Against C9 as stated: a response giving 150% is accepted with
    the score 1.5. *)
Lemma accepted_score_above_one :
  let job := Demo.job 1 "A" 0.8 in
  ∃ section t',
    Demo.loop Demo.over_table 1 0.6 [job] []
    = (Ret ([(1.50%Q, job, section)], 1), t')
    ∧ ¬ (1.50 <= 1)%Q.
Proof.
  intros job. do 2 eexists. split; [vm_compute; reflexivity|].
  by vm_compute.
Qed.

(** ** Failing completions *)

(** C6 does not hold of the code. [BaseAgent.generate_response] catches
    the failure of the provider and returns an apology text that embeds
    the message of the error, so the [except] clause of the loop never
    sees the failure and the text is parsed like an analysis. While the
    loop still looks for matches, the failed candidate is skipped when the
    apology text has no job header, or has one but no score in its first
    section that passes the threshold test; but when the message of the
    error holds a job header followed by a score that passes, the failed
    candidate is appended to [matched_jobs]. A provider failing with
    [Error generating response from openai: ### Job #1: Overall Match
    Score: 99%] for the only candidate makes [process] announce one job
    match. *)
Theorem failed_completion_is_parsed
    (llm_generate : nat -> string -> string -> outcome (option string))
    (exc_text : exc -> string) (get_system_prompt : string)
    (build_job_matching_context : string -> list Job -> string -> string)
    (n : Z) (query resume : string) (min_match_score : PyVal) (job : Job)
    (pool : list Job) (matched_jobs : list scored) (jobs_checked : nat)
    (t : list event) (e : exc) :
  let loop :=
    scoring_loop llm_generate exc_text get_system_prompt
      build_job_matching_context query resume (VInt n) min_match_score in
  let prompt :=
    build_job_matching_context resume [job] query +:+ threshold_instruction in
  let t' := t ++ [EvGenerate prompt get_system_prompt] in
  let sections := tail (split job_header (apology (exc_text e))) in
  (Z.of_nat (length matched_jobs) < n)%Z →
  llm_generate (length t) prompt get_system_prompt = Raise e →
  (sections = []
   ∨ (∃ section rest,
        sections = section :: rest
        ∧ py_score_ge (default 0%Q (find_score score_patterns section))
                      min_match_score ≠ Ret true) →
   loop (job :: pool) matched_jobs jobs_checked t
   = loop pool matched_jobs (S jobs_checked) t')
  ∧ (∀ section rest,
       sections = section :: rest →
       py_score_ge (default 0%Q (find_score score_patterns section))
                   min_match_score = Ret true →
       let entry :=
         (default 0%Q (find_score score_patterns section), job, section) in
       loop (job :: pool) matched_jobs jobs_checked t
       = if (n <=? Z.of_nat (length matched_jobs + 1))%Z
         then (Ret (matched_jobs ++ [entry], S jobs_checked), t')
         else loop pool (matched_jobs ++ [entry]) (S jobs_checked) t')
  ∧ (let failed := Demo.job 1 "A" 0.8 in
     Demo.agent [failed] Demo.failing_table "find jobs" (Demo.context 1 0.6)
                []
     = (Ret ("## 🎯 1 Job Matches Found (First 1 Above 60% Threshold)"
             +:+ nl +:+ nl +:+ " Overall Match Score: 99%"),
        [EvStats; EvRetrieve "Skills: Python, SQL" 1;
         EvGenerate (Demo.build "Skills: Python, SQL" [failed] "find jobs"
                     +:+ threshold_instruction) "system prompt"])).
Proof.
  intros loop prompt t' sections Hgo Hraise.
  assert (loop (job :: pool) matched_jobs jobs_checked t
          = match score_candidate (VInt n) min_match_score
                    (Some (apology (exc_text e))) job matched_jobs with
            | Ret (matched_jobs', Break) =>
                (Ret (matched_jobs', S jobs_checked), t')
            | Ret (matched_jobs', Continue) =>
                loop pool matched_jobs' (S jobs_checked) t'
            | Raise _ => loop pool matched_jobs (S jobs_checked) t'
            end) as ->.
  { unfold loop, t', prompt in *. rewrite loop_step by done.
    unfold generate_response. by rewrite Hraise. }
  unfold score_candidate. rewrite parse_single. fold sections.
  split_and!.
  - intros [->|(section & rest & -> & Hbelow)]; [done|].
    by destruct (py_score_ge _ _) as [[]|].
  - intros section rest -> ->.
    cbn [py_len_ge]. rewrite length_app. cbn [length].
    by destruct (n <=? _)%Z.
  - vm_compute. reflexivity.
Qed.

Lemma failed_completion_is_parsed_witness :
  let job := Demo.job 1 "A" 0.8 in
  let message :=
    "Error generating response from openai: "
    +:+ "### Job #1: Overall Match Score: 99%" in
  let prompt := Demo.build "Skills: Python, SQL" [job] "find jobs"
                +:+ threshold_instruction in
  (Z.of_nat (length (@nil scored)) < 1)%Z
  ∧ Demo.answers Demo.failing_table 0 prompt "system prompt"
    = Raise (Failure message)
  ∧ tail (split job_header (apology message))
    = [" Overall Match Score: 99%"]
  ∧ py_score_ge
      (default 0%Q (find_score score_patterns " Overall Match Score: 99%"))
      (VFloat 0.6) = Ret true
  ∧ Demo.loop Demo.failing_table 1 0.6 [job] []
    = (Ret ([(default 0%Q
                (find_score score_patterns " Overall Match Score: 99%"),
              job, " Overall Match Score: 99%")], 1),
       [EvGenerate prompt "system prompt"]).
Proof.
  intros job message prompt.
  assert (Z.of_nat (length (@nil scored)) < 1)%Z as Hgo by (cbn; lia).
  assert (Demo.answers Demo.failing_table 0 prompt "system prompt"
          = Raise (Failure message)) as Hraise by reflexivity.
  assert (tail (split job_header (apology message))
          = [" Overall Match Score: 99%"]) as Hsections
    by (vm_compute; reflexivity).
  assert (py_score_ge
            (default 0%Q
               (find_score score_patterns " Overall Match Score: 99%"))
            (VFloat 0.6) = Ret true) as Hge by (vm_compute; reflexivity).
  split; [exact Hgo|]. split; [exact Hraise|]. split; [exact Hsections|].
  split; [exact Hge|].
  exact (proj1 (proj2
    (failed_completion_is_parsed (Demo.answers Demo.failing_table)
       Demo.exc_text "system prompt" Demo.build 1%Z "find jobs"
       "Skills: Python, SQL" (VFloat 0.6) job [] [] 0 []
       (Failure message) Hgo Hraise))
    " Overall Match Score: 99%" [] Hsections Hge).
Defined.


(** ** Routing *)

Section RoutingProperties.
Import Text Supervisor.
Variable lower : string -> string.
Variable strip : string -> string.
Variable word_count : string -> nat.
Variable llm_generate : nat -> string -> string -> outcome (option string).
Variable exc_text : exc -> string.
Variable get_system_prompt : string.

Local Abbreviation route :=
  (Supervisor.process lower strip word_count llm_generate exc_text
     get_system_prompt).

Lemma keyword_route_known (query_lower agent : string) :
  keyword_route query_lower = Some agent → agent ∈ available_agents.
Proof.
  unfold keyword_route, available_agents.
  repeat (destruct (_ : bool); [intros [= <-]; set_solver|]). done.
Qed.

Lemma keyword_route_decides (query_lower : string) :
  contains "job" query_lower = true
  ∨ contains "resume" query_lower = true
  ∨ contains "interview" query_lower = true →
  is_Some (keyword_route query_lower).
Proof.
  unfold keyword_route. intros Hword.
  destruct (any_in job_phrases query_lower); [done|].
  destruct (any_in resume_phrases query_lower); [done|].
  destruct (any_in interview_phrases query_lower); [done|].
  unfold job_words. cbn [any_in existsb].
  destruct (contains "job" query_lower); cbn [negb andb orb].
  { rewrite andb_false_r. by destruct (contains "interview" query_lower). }
  destruct (contains "resume" query_lower); [done|].
  destruct (contains "interview" query_lower); [done|].
  by destruct Hword as [|[|]].
Qed.

(** X14. The supervisor never raises and always names one of the three
    agents or ['general']. It asks the language model at most once, with
    the routing prompt, and not at all for a query whose lower-cased text
    contains "job", "resume" or "interview". *)
Theorem supervisor_route_is_known (query : string) (t : list event) :
  ∃ agent events,
    route query t = (Ret agent, t ++ events)
    ∧ agent ∈ available_agents ++ ["general"]
    ∧ (events = []
       ∨ events = [EvGenerate (routing_prompt query) get_system_prompt])
    ∧ (contains "job" (strip (lower query)) = true
       ∨ contains "resume" (strip (lower query)) = true
       ∨ contains "interview" (strip (lower query)) = true →
       events = []).
Proof.
  unfold Supervisor.process.
  destruct (short_and_casual _ _ _).
  { exists "general", []. rewrite app_nil_r.
    split_and!; [done|set_solver|by left|done]. }
  destruct (keyword_route _) as [agent|] eqn:Hroute.
  { exists agent, []. rewrite app_nil_r.
    split_and!; [done| |by left|done].
    apply elem_of_app. left. by eapply keyword_route_known. }
  assert (∀ agent (t' : list event),
            agent ∈ available_agents ++ ["general"] →
            ∃ agent' events,
              (Ret agent, t ++ [EvGenerate (routing_prompt query)
                                           get_system_prompt])
              = (Ret agent', t ++ events)
              ∧ agent' ∈ available_agents ++ ["general"]
              ∧ (events = []
                 ∨ events = [EvGenerate (routing_prompt query)
                                        get_system_prompt])
              ∧ (contains "job" (strip (lower query)) = true
                 ∨ contains "resume" (strip (lower query)) = true
                 ∨ contains "interview" (strip (lower query)) = true →
                 events = [])) as Hasked.
  { intros agent _ Hagent. eexists agent, _.
    split_and!; [done|done|by right|].
    intros Hword. apply keyword_route_decides in Hword as [? Hsome].
    congruence. }
  unfold llm_route, bind, generate_response.
  destruct (llm_generate _ _ _) as [[text|]|e].
  - destruct (named_agent _) as [agent|] eqn:Hnamed.
    + apply (Hasked agent t). unfold named_agent in Hnamed.
      apply find_some in Hnamed as [Hin _]. by apply list_elem_of_In.
    + apply (Hasked "general" t). set_solver.
  - apply (Hasked "general" t). set_solver.
  - destruct (named_agent _) as [agent|] eqn:Hnamed.
    + apply (Hasked agent t). unfold named_agent in Hnamed.
      apply find_some in Hnamed as [Hin _]. by apply list_elem_of_In.
    + apply (Hasked "general" t). set_solver.
Qed.

(** X15. The order of the keyword checks. A query of at most three words
    that contains a greeting or a casual phrase, as a substring of its
    lower-cased text, is ['general'] whatever else it contains. Past that
    check, a job phrase wins over every other keyword; without any
    phrase, "interview" wins over "job", and "job" wins over "resume". No
    such query reaches the language model. *)
Theorem supervisor_keyword_precedence (query : string) (t : list event) :
  let query_lower := strip (lower query) in
  (word_count query ≤ 3 →
   any_in greetings query_lower = true ∨ any_in casual query_lower = true →
   route query t = (Ret "general", t))
  ∧ (short_and_casual word_count query query_lower = false →
     (any_in job_phrases query_lower = true →
      route query t = (Ret "job_matcher", t))
     ∧ (any_in job_phrases query_lower = false →
        any_in resume_phrases query_lower = false →
        any_in interview_phrases query_lower = false →
        contains "job" query_lower = true →
        (contains "interview" query_lower = true →
         route query t = (Ret "interview_prep", t))
        ∧ (contains "interview" query_lower = false →
           route query t = (Ret "job_matcher", t)))).
Proof.
  intros query_lower. unfold Supervisor.process. fold query_lower. split.
  - intros Hshort Hcasual. unfold short_and_casual.
    rewrite (proj2 (Nat.leb_le _ _) Hshort).
    destruct Hcasual as [-> | ->]; [done|].
    by destruct (any_in greetings query_lower).
  - intros ->. unfold keyword_route. split.
    + by intros ->.
    + intros -> -> -> Hjob. unfold job_words. cbn [any_in existsb].
      rewrite Hjob. cbn [negb andb orb]. rewrite andb_false_r.
      split; by intros ->.
Qed.
End RoutingProperties.


(** ** Instances *)

Lemma retrieve_jobs_positions_witness :
  let results :=
    Retriever.mkResults ["first"; "second"] [∅; ∅] [0.2; 0.5]%Q
                        ["a"; "b"; "c"] in
  let search_jobs := fun (_ : string) (_ : Z) => Ret results in
  search_jobs "python" (Retriever.requested None) = Ret results
  ∧ ∃ jobs,
      Retriever.retrieve_jobs search_jobs "python" None = Ret jobs
      ∧ length jobs = 2.
Proof.
  intros results search_jobs. split; [reflexivity|].
  destruct (proj1 (proj2 (retrieve_jobs_positions search_jobs "python" None))
              results eq_refl) as (jobs & Hjobs & Hlen & _).
  exists jobs. split; [exact Hjobs|exact Hlen].
Defined.

Lemma process_call_order_witness :
  ∃ response events,
    Demo.agent Demo.low_then_high Demo.low_then_high_table "find jobs"
               (Demo.context 1 0.6) []
    = (Ret response, events).
Proof.
  destruct (process_call_order (Demo.stats 2)
              (fun _ _ => Ret Demo.low_then_high)
              (Demo.answers Demo.low_then_high_table) Demo.exc_text
              "system prompt" Demo.build (fun s => s)
              (fun x => pretty (Qfloor (x * 100)))
              "find jobs" (Demo.context 1 0.6) [])
    as (response & events & Hrun & _).
  exists response, events. exact Hrun.
Defined.

Lemma process_reports_failure_witness :
  let ctx : gmap string PyVal := {[ "resume_text" := VStr "Skills: SQL" ]} in
  ctx !! "resume_text" = Some (VStr "Skills: SQL")
  ∧ process (Raise (Failure "store offline")) (fun _ _ => Ret [])
      (Demo.answers []) Demo.exc_text "system prompt" Demo.build
      (fun s => s) (fun x => pretty (Qfloor (x * 100)))
      "find jobs" (Some ctx) []
    = (Ret (format_error_response "store offline"), [EvStats]).
Proof.
  intros ctx.
  assert (ctx !! "resume_text" = Some (VStr "Skills: SQL")) as Hresume
    by reflexivity.
  split; [exact Hresume|].
  exact (proj1 (process_reports_failure (Raise (Failure "store offline"))
                  (fun _ _ => Ret []) (Demo.answers []) Demo.exc_text
                  "system prompt" Demo.build (fun s => s)
                  (fun x => pretty (Qfloor (x * 100)))
                  "find jobs" ctx (VStr "Skills: SQL")
                  (Failure "store offline") [] Hresume) eq_refl).
Defined.

Lemma process_ill_typed_context_witness :
  let ctx : gmap string PyVal := {[ "resume_text" := VInt 7 ]} in
  let stats : gmap string Z :=
    {[ "total_jobs" := 2%Z; "total_resumes" := 0%Z ]} in
  ctx !! "resume_text" = Some (VInt 7)
  ∧ default 0%Z (stats !! "total_jobs") ≠ 0%Z
  ∧ (∀ resume, VInt 7 ≠ VStr resume)
  ∧ Demo.agent Demo.low_then_high Demo.low_then_high_table "find jobs"
               (Some ctx) []
    = (Ret (format_error_response "TypeError"), [EvStats]).
Proof.
  intros ctx stats.
  assert (ctx !! "resume_text" = Some (VInt 7)) as Hresume by reflexivity.
  assert (default 0%Z (stats !! "total_jobs") ≠ 0%Z) as Htotal
    by (vm_compute; discriminate).
  assert (∀ resume, VInt 7 ≠ VStr resume) as Hno by discriminate.
  split; [exact Hresume|]. split; [exact Htotal|]. split; [exact Hno|].
  exact (proj1 (process_ill_typed_context (Demo.stats 2)
                  (fun _ _ => Ret Demo.low_then_high)
                  (Demo.answers Demo.low_then_high_table) Demo.exc_text
                  "system prompt" Demo.build (fun s => s)
                  (fun x => pretty (Qfloor (x * 100)))
                  "find jobs" ctx (VInt 7) stats [] Hresume eq_refl Htotal)
               Hno).
Defined.

Lemma process_without_candidates_witness :
  let ctx : gmap string PyVal :=
    {[ "resume_text" := VStr "Skills: Python, SQL";
       "n_results" := VInt 5; "min_match_score" := VFloat 0.6 ]} in
  let stats : gmap string Z :=
    {[ "total_jobs" := 1%Z; "total_resumes" := 0%Z ]} in
  let pool := [Demo.job 1 "A" 0.2] in
  ctx !! "resume_text" = Some (VStr "Skills: Python, SQL")
  ∧ default 0%Z (stats !! "total_jobs") ≠ 0%Z
  ∧ Forall (λ job, (similarity_score job < 0.35)%Q) pool
  ∧ Demo.agent pool [] "find jobs" (Some ctx) []
    = (Ret (no_match_message "60" 0 1),
       [EvStats; EvRetrieve "Skills: Python, SQL" 1]).
Proof.
  intros ctx stats pool.
  assert (ctx !! "resume_text" = Some (VStr "Skills: Python, SQL"))
    as Hresume by reflexivity.
  assert (default 0%Z (stats !! "total_jobs") ≠ 0%Z) as Htotal
    by (vm_compute; discriminate).
  assert (Forall (λ job, (similarity_score job < 0.35)%Q) pool) as Hlow
    by (repeat constructor).
  split; [exact Hresume|]. split; [exact Htotal|]. split; [exact Hlow|].
  exact (proj2 (process_without_candidates (Demo.stats 1)
                  (fun _ _ => Ret pool) (Demo.answers []) Demo.exc_text
                  "system prompt" Demo.build (fun s => s)
                  (fun x => pretty (Qfloor (x * 100)))
                  "find jobs" "Skills: Python, SQL" ctx stats pool []
                  Hresume eq_refl Htotal eq_refl)
               "60" ltac:(discriminate) eq_refl (or_introl Hlow)).
Defined.

Lemma scoring_loop_first_accepted_witness :
  (1 ≤ 1)%Z
  ∧ ∃ jobs_checked gens,
      Demo.loop Demo.low_then_high_table 1 0.6 Demo.low_then_high []
      = (Ret (take 1 (accepted (Demo.answers Demo.low_then_high_table)
                        Demo.exc_text "system prompt" Demo.build
                        "find jobs" "Skills: Python, SQL" (VFloat 0.6) 0
                        Demo.low_then_high),
              jobs_checked), gens)
      ∧ jobs_checked ≤ 2.
Proof.
  assert (1 ≤ 1)%Z as Hn by lia. split; [exact Hn|].
  destruct (scoring_loop_first_accepted (Demo.answers Demo.low_then_high_table)
              Demo.exc_text "system prompt" Demo.build
              "find jobs" "Skills: Python, SQL" 1 (VFloat 0.6)
              Demo.low_then_high [] Hn)
    as (jobs_checked & gens & Hloop & _ & _ & Hk & _).
  exists jobs_checked, gens. split; [exact Hloop|exact Hk].
Defined.

Lemma validate_context_iff_witness :
  validate_context (Demo.context 5 0.6) (["resume_text"] ++ ["job_id"])
  = validate_context (Demo.context 5 0.6) ["resume_text"]
    && validate_context (Demo.context 5 0.6) ["job_id"].
Proof.
  exact (proj2 (proj2 (validate_context_iff (Demo.context 5 0.6)
                         ["resume_text"] ["job_id"]))).
Defined.

Lemma top_scored_sound_witness :
  let response :=
    "### Job #1: Analyst. Match Score: 70% ### Job #2: Engineer. "
    +:+ "Match Score: 90% ### Job #3: Clerk. Match Score: 70%" in
  (0 ≤ 2)%Z
  ∧ (Z.of_nat (length (top_scored response 0.6 2)) ≤ 2)%Z
  ∧ StronglySorted ranks_before (top_scored response 0.6 2).
Proof.
  intros response. assert (0 ≤ 2)%Z as Hmax by lia.
  split; [exact Hmax|].
  pose proof (top_scored_sound response 0.6 2) as Hsound.
  cbv zeta in Hsound. destruct Hsound as (_ & _ & Hsorted & Hlen & _).
  split; [exact (Hlen Hmax)|exact Hsorted].
Defined.

Lemma filter_by_match_score_edges_witness :
  search job_header "no header here, 80% match" = None
  ∧ _filter_by_match_score (fun x => pretty (Qfloor (x * 100)))
      "no header here, 80% match" 0.5 [] 5
    = "no header here, 80% match".
Proof.
  assert (search job_header "no header here, 80% match" = None) as Hnone
    by (vm_compute; reflexivity).
  split; [exact Hnone|].
  exact (proj1 (filter_by_match_score_edges
                  (fun x => pretty (Qfloor (x * 100)))
                  "no header here, 80% match" 0.5 [] 5) Hnone).
Defined.

Lemma process_answers_first_accepted_witness :
  let ctx : gmap string PyVal :=
    {[ "resume_text" := VStr "Skills: Python, SQL";
       "n_results" := VInt 1; "min_match_score" := VFloat 0.6 ]} in
  let stats : gmap string Z :=
    {[ "total_jobs" := 2%Z; "total_resumes" := 0%Z ]} in
  ctx !! "resume_text" = Some (VStr "Skills: Python, SQL")
  ∧ default 0%Z (stats !! "total_jobs") ≠ 0%Z
  ∧ default (VInt 5) (ctx !! "n_results") = VInt 1
  ∧ (1 ≤ 1)%Z
  ∧ ∃ response gens,
      Demo.agent Demo.low_then_high Demo.low_then_high_table "find jobs"
                 (Some ctx) []
      = (Ret response,
         [EvStats; EvRetrieve "Skills: Python, SQL" 2] ++ gens)
      ∧ length gens ≤ 2.
Proof.
  intros ctx stats.
  assert (ctx !! "resume_text" = Some (VStr "Skills: Python, SQL"))
    as Hresume by reflexivity.
  assert (default 0%Z (stats !! "total_jobs") ≠ 0%Z) as Htotal
    by (vm_compute; discriminate).
  assert (default (VInt 5) (ctx !! "n_results") = VInt 1) as Hcount
    by reflexivity.
  assert (1 ≤ 1)%Z as Hn by lia.
  split; [exact Hresume|]. split; [exact Htotal|]. split; [exact Hcount|].
  split; [exact Hn|].
  destruct (process_answers_first_accepted (Demo.stats 2)
              (fun _ _ => Ret Demo.low_then_high)
              (Demo.answers Demo.low_then_high_table) Demo.exc_text
              "system prompt" Demo.build (fun s => s)
              (fun x => pretty (Qfloor (x * 100)))
              "find jobs" "Skills: Python, SQL" ctx stats
              Demo.low_then_high "60" 1 []
              Hresume eq_refl Htotal eq_refl ltac:(discriminate) eq_refl
              Hcount Hn)
    as (gens & Hrun & _ & Hlen & _).
  eexists _, gens. split; [exact Hrun|exact Hlen].
Defined.

Lemma supervisor_route_is_known_witness :
  ∃ agent events,
    RoutingDemo.supervisor (Ret (Some "Resume_Coach"))
                           "What is the salary range here" []
    = (Ret agent, events)
    ∧ agent ∈ Supervisor.available_agents ++ ["general"].
Proof.
  destruct (supervisor_route_is_known RoutingDemo.lower RoutingDemo.strip
              RoutingDemo.word_count
              (fun _ _ _ => Ret (Some "Resume_Coach")) Demo.exc_text
              "supervisor prompt" "What is the salary range here" [])
    as (agent & events & Hroute & Hagent & _).
  exists agent, events. split; [exact Hroute|exact Hagent].
Defined.

Lemma supervisor_keyword_precedence_witness :
  let query := "machine learning jobs" in
  RoutingDemo.word_count query ≤ 3
  ∧ Supervisor.any_in Supervisor.greetings
      (RoutingDemo.strip (RoutingDemo.lower query)) = true
  ∧ Text.contains "job" (RoutingDemo.strip (RoutingDemo.lower query)) = true
  ∧ RoutingDemo.supervisor (Ret None) query [] = (Ret "general", []).
Proof.
  intros query.
  assert (RoutingDemo.word_count query ≤ 3) as Hshort
    by (vm_compute; lia).
  assert (Supervisor.any_in Supervisor.greetings
            (RoutingDemo.strip (RoutingDemo.lower query)) = true) as Hhi
    by (vm_compute; reflexivity).
  split; [exact Hshort|]. split; [exact Hhi|].
  split; [vm_compute; reflexivity|].
  exact (proj1 (supervisor_keyword_precedence RoutingDemo.lower
                  RoutingDemo.strip RoutingDemo.word_count
                  (fun _ _ _ => Ret None) Demo.exc_text "supervisor prompt"
                  query [])
               Hshort (or_introl Hhi)).
Defined.
